(** * Short_Long: indicator library and strategy engine

    A shallow embedding of [src/indicators/technical_indicators.py] and of the
    four strategies under [src/strategies/], with the properties of the
    specification proved (or refuted) on it.

    Numbers.  The Python code computes on IEEE-754 doubles (Python floats,
    numpy float64 inside pandas Series).  The embedding keeps what decides the
    behaviour of the code, the special values NaN, +inf and -inf and the way
    comparisons and arithmetic treat them, and takes the finite values to be
    real numbers: rounding and overflow of finite results are not modelled,
    and zero has no sign (a non-zero finite number divided by zero gives the
    infinity of the sign of the dividend, as it does for +0.0).

    pandas.  A Series is the list of its values under the default positional
    index; NaN is the missing-value marker.  [rolling(window=w)] has
    [min_periods = w]: a position whose trailing window is incomplete or
    holds a NaN yields NaN.  A negative window, or a span below 1 for
    [ewm], raises [ValueError] as pandas does; positional access outside the
    Series raises [IndexError], and an attribute read on [None] raises
    [AttributeError]. *)

From Stdlib Require Import String QArith Qreals Reals Lra Lia ZArith Bool List.
Import ListNotations.

Local Open Scope R_scope.

(* ------------------------------------------------------------------ *)
(** ** Floating-point values *)

Module Num.

Inductive num : Type :=
| Fin (r : R)
| PInf
| NInf
| NaN.

Definition Rltb (x y : R) : bool := if Rlt_dec x y then true else false.
Definition Rleb (x y : R) : bool := if Rle_dec x y then true else false.
Definition Reqb (x y : R) : bool := if Req_dec_T x y then true else false.

(** Sign of a real, used where IEEE arithmetic looks at the sign of an
    operand. *)
Definition Rsign (x : R) : comparison :=
  if Rltb x 0 then Lt else if Rltb 0 x then Gt else Eq.

Definition is_nan (a : num) : bool :=
  match a with NaN => true | _ => false end.

(** [a < b]; false as soon as one side is NaN. *)
Definition ltb (a b : num) : bool :=
  match a, b with
  | NaN, _ | _, NaN => false
  | Fin x, Fin y => Rltb x y
  | NInf, (Fin _ | PInf) => true
  | Fin _, PInf => true
  | _, _ => false
  end.

(** [a <= b]. *)
Definition leb (a b : num) : bool :=
  match a, b with
  | NaN, _ | _, NaN => false
  | Fin x, Fin y => Rleb x y
  | NInf, _ => true
  | _, PInf => true
  | _, _ => false
  end.

Definition gtb (a b : num) : bool := ltb b a.
Definition geb (a b : num) : bool := leb b a.

(** [a == b]; NaN differs from everything, itself included. *)
Definition eqb (a b : num) : bool :=
  match a, b with
  | Fin x, Fin y => Reqb x y
  | PInf, PInf | NInf, NInf => true
  | _, _ => false
  end.

Definition neg (a : num) : num :=
  match a with
  | Fin x => Fin (- x)
  | PInf => NInf
  | NInf => PInf
  | NaN => NaN
  end.

Definition add (a b : num) : num :=
  match a, b with
  | NaN, _ | _, NaN => NaN
  | Fin x, Fin y => Fin (x + y)
  | PInf, NInf | NInf, PInf => NaN
  | PInf, _ | _, PInf => PInf
  | NInf, _ | _, NInf => NInf
  end.

Definition sub (a b : num) : num := add a (neg b).

(** The infinity of a given sign; (inf * 0) and (0 / 0) are NaN. *)
Definition inf_of_sign (s : comparison) : num :=
  match s with Gt => PInf | Lt => NInf | Eq => NaN end.

Definition sign_of (a : num) : comparison :=
  match a with
  | Fin x => Rsign x
  | PInf => Gt
  | NInf => Lt
  | NaN => Eq
  end.

Definition sign_mul (s t : comparison) : comparison :=
  match s, t with
  | Eq, _ | _, Eq => Eq
  | Gt, Gt | Lt, Lt => Gt
  | _, _ => Lt
  end.

Definition mul (a b : num) : num :=
  match a, b with
  | NaN, _ | _, NaN => NaN
  | Fin x, Fin y => Fin (x * y)
  | _, _ => inf_of_sign (sign_mul (sign_of a) (sign_of b))
  end.

Definition div (a b : num) : num :=
  match a, b with
  | NaN, _ | _, NaN => NaN
  | Fin x, Fin y =>
      if Reqb y 0 then inf_of_sign (Rsign x) else Fin (x / y)
  | Fin _, (PInf | NInf) => Fin 0
  | (PInf | NInf), (PInf | NInf) => NaN
  | (PInf | NInf), Fin y =>
      if Rltb y 0 then neg a else a
  end.

Definition abs (a : num) : num :=
  match a with
  | Fin x => Fin (Rabs x)
  | PInf | NInf => PInf
  | NaN => NaN
  end.

Definition sqrt (a : num) : num :=
  match a with
  | Fin x => if Rltb x 0 then NaN else Fin (R_sqrt.sqrt x)
  | PInf => PInf
  | NInf | NaN => NaN
  end.

(** Python's builtin [min(a, b)] and [max(a, b)] on two arguments: the
    first argument is kept unless the second is strictly better, so a NaN
    second argument is never chosen. *)
Definition py_min (a b : num) : num := if ltb b a then b else a.
Definition py_max (a b : num) : num := if gtb b a then b else a.

Definition of_Z (z : Z) : num := Fin (IZR z).

End Num.
Export Num.

Declare Scope num_scope.
Delimit Scope num_scope with num.
Bind Scope num_scope with num.
Infix "+" := add : num_scope.
Infix "-" := sub : num_scope.
Infix "*" := mul : num_scope.
Infix "/" := div : num_scope.
Notation "- a" := (neg a) : num_scope.
Infix "<?" := ltb (at level 70) : num_scope.
Infix "<=?" := leb (at level 70) : num_scope.
Infix ">?" := gtb (at level 70) : num_scope.
Infix ">=?" := geb (at level 70) : num_scope.

(* ------------------------------------------------------------------ *)
(** ** Exceptions *)

Inductive exn : Type :=
| ValueError
| IndexError
| KeyError
| AttributeError.

Inductive result (A : Type) : Type :=
| Ok (a : A)
| Raise (e : exn).
Arguments Ok {A} a.
Arguments Raise {A} e.

Definition bind {A B : Type} (m : result A) (k : A -> result B) : result B :=
  match m with
  | Ok a => k a
  | Raise e => Raise e
  end.

Notation "x <- m ;; k" := (bind m (fun x => k))
  (at level 61, m at next level, right associativity).
Notation "' pat <- m ;; k" := (bind m (fun x => match x with pat => k end))
  (at level 61, pat pattern, m at next level, right associativity).

(* ------------------------------------------------------------------ *)
(** ** pandas Series *)

Local Open Scope num_scope.

Definition Series : Type := list num.

(** [len(s)] *)
Definition len {A : Type} (s : list A) : Z := Z.of_nat (length s).

Definition of_nat (n : nat) : num := of_Z (Z.of_nat n).

(** [s.iloc[k]] for an integer [k], negative positions counted from the end. *)
Definition iloc (s : Series) (k : Z) : result num :=
  let i := if (k <? 0)%Z then (len s + k)%Z else k in
  if (i <? 0)%Z then Raise IndexError
  else match nth_error s (Z.to_nat i) with
       | Some v => Ok v
       | None => Raise IndexError
       end.

(** [x.iloc[k]] where the name [x] holds a Series or [None]: [None] has no
    attribute [iloc]. *)
Definition attr_iloc (x : option Series) (k : Z) : result num :=
  match x with
  | Some s => iloc s k
  | None => Raise AttributeError
  end.

(** Start position of the Python slice [start:] on a sequence of length [n]. *)
Definition slice_start (n start : Z) : nat :=
  Z.to_nat (if (start <? 0)%Z then Z.max 0 (n + start) else Z.min start n).

(** Element-wise binary operation of two Series aligned on the positional
    index; a position present on one side only is missing (NaN) on the
    other. *)
Fixpoint map2 (f : num -> num -> num) (a b : Series) : Series :=
  match a, b with
  | x :: a', y :: b' => f x y :: map2 f a' b'
  | [], _ => map (f NaN) b
  | _, [] => map (fun x => f x NaN) a
  end.

(** [s.diff()] *)
Fixpoint diff_from (prev : num) (s : Series) : Series :=
  match s with
  | [] => []
  | x :: t => (x - prev) :: diff_from x t
  end.

Definition diff (s : Series) : Series :=
  match s with
  | [] => []
  | x :: t => NaN :: diff_from x t
  end.

(** [s.shift()] *)
Definition shift (s : Series) : Series :=
  match s with
  | [] => []
  | _ :: _ => NaN :: removelast s
  end.

(** [s.where(cond, other)] with the condition computed element-wise on [s]
    itself. *)
Definition where_ (cond : num -> bool) (other : num) (s : Series) : Series :=
  map (fun x => if cond x then x else other) s.

Definition sum (l : list num) : num := fold_right add (Fin 0) l.

Definition mean (l : list num) : num := sum l / of_nat (length l).

(** Sample standard deviation, pandas' default [ddof=1]. *)
Definition std (l : list num) : num :=
  let m := mean l in
  Num.sqrt (sum (map (fun x => (x - m) * (x - m)) l)
            / (of_nat (length l) - Fin 1)).

(** Maximum and minimum of two non-missing values. *)
Definition fmax (a b : num) : num :=
  match a, b with
  | NaN, _ | _, NaN => NaN
  | Fin x, Fin y => Fin (Rmax x y)
  | PInf, _ | _, PInf => PInf
  | NInf, c | c, NInf => c
  end.

Definition fmin (a b : num) : num :=
  match a, b with
  | NaN, _ | _, NaN => NaN
  | Fin x, Fin y => Fin (Rmin x y)
  | NInf, _ | _, NInf => NInf
  | PInf, c | c, PInf => c
  end.

Definition max_list (l : list num) : num :=
  match l with
  | [] => NaN
  | x :: t => fold_right fmax x t
  end.

Definition min_list (l : list num) : num :=
  match l with
  | [] => NaN
  | x :: t => fold_right fmin x t
  end.

(** The trailing window of [w] samples that ends at position [i]. *)
Definition window_at (w : nat) (s : Series) (i : nat) : list num :=
  firstn w (skipn (S i - w) s).

(** [s.rolling(window=w).agg()]: [min_periods] defaults to [w], so the
    result is NaN while the window is incomplete or when it holds a NaN. *)
Definition rolling_apply (w : nat) (agg : list num -> num) (s : Series)
  : Series :=
  map (fun i =>
         if (S i <? w)%nat then NaN
         else let win := window_at w s i in
              if existsb is_nan win then NaN else agg win)
      (seq 0 (length s)).

(** [s.rolling(window=w)]: the window is validated when the object is
    built. *)
Definition rolling (window : Z) : result nat :=
  if (window <? 0)%Z then Raise ValueError else Ok (Z.to_nat window).

Definition rolling_mean (s : Series) (window : Z) : result Series :=
  w <- rolling window ;; Ok (rolling_apply w mean s).

Definition rolling_std (s : Series) (window : Z) : result Series :=
  w <- rolling window ;; Ok (rolling_apply w std s).

Definition rolling_max (s : Series) (window : Z) : result Series :=
  w <- rolling window ;; Ok (rolling_apply w max_list s).

Definition rolling_min (s : Series) (window : Z) : result Series :=
  w <- rolling window ;; Ok (rolling_apply w min_list s).

(** [pd.concat([a, b, c], axis=1).max(axis=1)]: row maximum, missing
    values skipped. *)
Definition nanmax (a b : num) : num :=
  match a, b with
  | NaN, c | c, NaN => c
  | _, _ => fmax a b
  end.

Definition row_max3 (a b c : Series) : Series :=
  map2 nanmax (map2 nanmax a b) c.

(** [s.ewm(span=span, adjust=False).mean()], pandas' recurrence with its
    state: the running weighted mean and the weight [old_wt] of the past. *)
Definition ewm_step (alpha : num) (st : num * num) (cur : num) : num * num :=
  let '(weighted, old_wt) := st in
  if is_nan weighted then
    (if is_nan cur then (weighted, old_wt) else (cur, old_wt))
  else
    let old_wt := old_wt * (Fin 1 - alpha) in
    if is_nan cur then (weighted, old_wt)
    else
      let weighted :=
        if Num.eqb weighted cur then weighted
        else (old_wt * weighted + alpha * cur) / (old_wt + alpha) in
      (weighted, Fin 1).

Fixpoint ewm_from (alpha : num) (st : num * num) (s : Series) : Series :=
  match s with
  | [] => []
  | cur :: t =>
      let st' := ewm_step alpha st cur in
      fst st' :: ewm_from alpha st' t
  end.

Definition ewm_mean (s : Series) (span : Z) : result Series :=
  if (span <? 1)%Z then Raise ValueError
  else
    let alpha := Fin 2 / (of_Z span + Fin 1) in
    match s with
    | [] => Ok []
    | x :: t => Ok (x :: ewm_from alpha (x, Fin 1) t)
    end.

(** A Series together with its index labels, for the label-based access
    of [detect_divergence]. *)
Definition LSeries : Type := list (nat * num).

Definition labelled (s : Series) : LSeries := combine (seq 0 (length s)) s.

Definition index (s : LSeries) : list nat := map fst s.
Definition values (s : LSeries) : Series := map snd s.

(** [s.iloc[start:]] *)
Definition iloc_from (s : Series) (start : Z) : LSeries :=
  skipn (slice_start (len s) start) (labelled s).

(** [s.loc[labels]]: a label that is not in the index raises [KeyError]. *)
Fixpoint lookup (s : LSeries) (l : nat) : option num :=
  match s with
  | [] => None
  | (k, v) :: t => if Nat.eqb k l then Some v else lookup t l
  end.

Fixpoint loc (s : LSeries) (labels : list nat) : result LSeries :=
  match labels with
  | [] => Ok []
  | l :: rest =>
      match lookup s l with
      | None => Raise KeyError
      | Some v => r <- loc s rest ;; Ok ((l, v) :: r)
      end
  end.

(** Stable insertion of an entry in a list sorted by [before]. *)
Fixpoint insert_by (before : num -> num -> bool) (e : nat * num)
  (l : LSeries) : LSeries :=
  match l with
  | [] => [e]
  | y :: l' => if before (snd e) (snd y) then e :: l
               else y :: insert_by before e l'
  end.

Definition sort_by (before : num -> num -> bool) (l : LSeries) : LSeries :=
  fold_right (insert_by before) [] l.

(** [s.nsmallest(n)] and [s.nlargest(n)] with [keep='first']: the entries
    ordered by value, equal values in order of appearance, the missing ones
    last; the first [n] of them. *)
Definition select_n (before : num -> num -> bool) (n : nat) (s : LSeries)
  : LSeries :=
  firstn n (sort_by before (filter (fun e => negb (is_nan (snd e))) s)
            ++ filter (fun e => is_nan (snd e)) s).

Definition nsmallest (n : nat) (s : LSeries) : LSeries := select_n leb n s.
Definition nlargest (n : nat) (s : LSeries) : LSeries := select_n geb n s.

(* ------------------------------------------------------------------ *)
(** ** Indicators ([src/indicators/technical_indicators.py]) *)

Definition calculate_rsi (prices : Series) (period : Z) : result Series :=
  let delta := diff prices in
  gain <- rolling_mean (where_ (fun d => d >? Fin 0) (Fin 0) delta) period ;;
  loss <- rolling_mean
            (map neg (where_ (fun d => d <? Fin 0) (Fin 0) delta)) period ;;
  let rs := map2 div gain loss in
  let rsi := map (fun r => Fin 100 - Fin 100 / (Fin 1 + r)) rs in
  Ok rsi.

Definition calculate_ema (prices : Series) (period : Z) : result Series :=
  ewm_mean prices period.

Definition calculate_macd (prices : Series) (fast slow signal : Z)
  : result (Series * Series * Series) :=
  ema_fast <- calculate_ema prices fast ;;
  ema_slow <- calculate_ema prices slow ;;
  let macd_line := map2 sub ema_fast ema_slow in
  signal_line <- calculate_ema macd_line signal ;;
  let histogram := map2 sub macd_line signal_line in
  Ok (macd_line, signal_line, histogram).

Definition calculate_bollinger_bands (prices : Series) (period : Z)
  (std_dev : num) : result (Series * Series * Series) :=
  middle <- rolling_mean prices period ;;
  std <- rolling_std prices period ;;
  let upper := map2 add middle (map (fun x => x * std_dev) std) in
  let lower := map2 sub middle (map (fun x => x * std_dev) std) in
  Ok (upper, middle, lower).

Definition calculate_atr (high low close : Series) (period : Z)
  : result Series :=
  let tr1 := map2 sub high low in
  let tr2 := map Num.abs (map2 sub high (shift close)) in
  let tr3 := map Num.abs (map2 sub low (shift close)) in
  let tr := row_max3 tr1 tr2 tr3 in
  rolling_mean tr period.

Inductive Divergence : Type :=
| bullish
| bearish.

Definition detect_divergence (prices indicator : Series) (lookback : Z)
  : result (option Divergence) :=
  if (len prices <? lookback * 2)%Z then Ok None
  else
    let recent_prices := iloc_from prices (- lookback) in
    let recent_indicator := iloc_from indicator (- lookback) in
    (* Check for bullish divergence *)
    let price_lows := nsmallest 2 recent_prices in
    indicator_lows <- loc recent_indicator (index price_lows) ;;
    is_bullish <-
      (if (2 <=? length price_lows)%nat && (2 <=? length indicator_lows)%nat
       then
         p1 <- iloc (values price_lows) (-1) ;;
         p2 <- iloc (values price_lows) (-2) ;;
         i1 <- iloc (values indicator_lows) (-1) ;;
         i2 <- iloc (values indicator_lows) (-2) ;;
         Ok ((p1 >? p2) && (i1 <? i2))
       else Ok false) ;;
    if is_bullish then Ok (Some bullish)
    else
      (* Check for bearish divergence *)
      let price_highs := nlargest 2 recent_prices in
      indicator_highs <- loc recent_indicator (index price_highs) ;;
      is_bearish <-
        (if (2 <=? length price_highs)%nat
            && (2 <=? length indicator_highs)%nat
         then
           p1 <- iloc (values price_highs) (-1) ;;
           p2 <- iloc (values price_highs) (-2) ;;
           i1 <- iloc (values indicator_highs) (-1) ;;
           i2 <- iloc (values indicator_highs) (-2) ;;
           Ok ((p1 <? p2) && (i1 >? i2))
         else Ok false) ;;
      if is_bearish then Ok (Some bearish) else Ok None.

(* ------------------------------------------------------------------ *)
(** ** Candles and signals *)

Record Candle : Type := mkCandle {
  open : num;
  high : num;
  low : num;
  close : num;
  volume : num
}.

(** The OHLCV DataFrame, one row per candle; [col f df] is [df['f']]. *)
Definition DataFrame : Type := list Candle.

Definition col (f : Candle -> num) (df : DataFrame) : Series := map f df.

Inductive Direction : Type :=
| long
| short.

(** The dictionary returned by [generate_signal]: the five common keys
    and the strategy's own ones. *)
Record Signal : Type := mkSignal {
  signal : Direction;
  entry_price : num;
  stop_loss : num;
  take_profit : num;
  confidence : num;
  extra : list (string * num)
}.

(* ------------------------------------------------------------------ *)
(** ** Volume Breakout ([src/strategies/volume_breakout.py]) *)

Module VolumeBreakoutStrategy.

Record t : Type := mk { volume_multiplier : num }.

(** [__init__(self, volume_multiplier=2.0)] *)
Definition init (volume_multiplier : num) : result t :=
  Ok (mk volume_multiplier).

Definition default : result t := init (Fin 2.0).

Definition calculate_stop_loss (self : t) (df : DataFrame)
  (entry_price : num) (signal : Direction) : result num :=
  match signal with
  | long =>
      r <- rolling_min (col low df) 10 ;;
      recent_low <- iloc r (-1) ;;
      Ok (recent_low * Fin 0.995)
  | short =>
      r <- rolling_max (col high df) 10 ;;
      recent_high <- iloc r (-1) ;;
      Ok (recent_high * Fin 1.005)
  end.

Definition calculate_take_profit (self : t) (entry_price stop_loss : num)
  (risk_reward_ratio : num) : num :=
  let risk := Num.abs (entry_price - stop_loss) in
  let reward := risk * risk_reward_ratio in
  if entry_price >? stop_loss then entry_price + reward
  else entry_price - reward.

Definition generate_signal (self : t) (df : DataFrame)
  : result (option Signal) :=
  if (len df <? 20)%Z then Ok None
  else
    rm <- rolling_mean (col volume df) 10 ;;
    avg_volume <- iloc rm (-1) ;;
    current_volume <- iloc (col volume df) (-1) ;;
    if current_volume <? avg_volume * volume_multiplier self then Ok None
    else
      current_price <- iloc (col close df) (-1) ;;
      rh <- rolling_max (col high df) 20 ;;
      recent_high <- iloc rh (-2) ;;
      rl <- rolling_min (col low df) 20 ;;
      recent_low <- iloc rl (-2) ;;
      let entry_price := current_price in
      let signal :=
        if current_price >? recent_high then Some long
        else if current_price <? recent_low then Some short
        else None in
      match signal with
      | Some signal =>
          stop_loss <- calculate_stop_loss self df entry_price signal ;;
          let take_profit :=
            calculate_take_profit self entry_price stop_loss (Fin 2.0) in
          let volume_ratio := current_volume / avg_volume in
          let confidence :=
            py_min (Fin 0.9)
                   (Fin 0.5 + (volume_ratio - Fin 2) * Fin 0.1) in
          Ok (Some (mkSignal signal entry_price stop_loss take_profit
                      confidence
                      [("volume_ratio"%string, volume_ratio)]))
      | None => Ok None
      end.

End VolumeBreakoutStrategy.

(* ------------------------------------------------------------------ *)
(** ** RSI Divergence ([src/strategies/rsi_divergence.py]) *)

Module RSIDivergenceStrategy.

Record t : Type := mk {
  rsi_period : Z;
  rsi_oversold : num;
  rsi_overbought : num
}.

(** [__init__(self, rsi_period=14, rsi_oversold=30, rsi_overbought=70)] *)
Definition init (rsi_period : Z) (rsi_oversold rsi_overbought : num)
  : result t :=
  Ok (mk rsi_period rsi_oversold rsi_overbought).

Definition default : result t := init 14 (Fin 30) (Fin 70).

Definition calculate_stop_loss (self : t) (df : DataFrame)
  (entry_price : num) (signal : Direction) : result num :=
  match signal with
  | long =>
      r <- rolling_min (col low df) 10 ;;
      recent_low <- iloc r (-1) ;;
      Ok (recent_low * Fin 0.98)
  | short =>
      r <- rolling_max (col high df) 10 ;;
      recent_high <- iloc r (-1) ;;
      Ok (recent_high * Fin 1.02)
  end.

Definition calculate_take_profit (self : t) (entry_price stop_loss : num)
  (risk_reward_ratio : num) : num :=
  let risk := Num.abs (entry_price - stop_loss) in
  let reward := risk * risk_reward_ratio in
  if entry_price >? stop_loss then entry_price + reward
  else entry_price - reward.

Definition generate_signal (self : t) (df : DataFrame)
  : result (option Signal) :=
  if (len df <? rsi_period self + 20)%Z then Ok None
  else
    rsi <- calculate_rsi (col close df) (rsi_period self) ;;
    current_rsi <- iloc rsi (-1) ;;
    divergence <- detect_divergence (col close df) rsi 10 ;;
    entry_price <- iloc (col close df) (-1) ;;
    let decision :=
      match divergence with
      | Some bullish =>
          if current_rsi <? rsi_overbought self
          then Some (long, if current_rsi <? rsi_oversold self
                           then Fin 0.7 else Fin 0.5)
          else None
      | Some bearish =>
          if current_rsi >? rsi_oversold self
          then Some (short, if current_rsi >? rsi_overbought self
                            then Fin 0.7 else Fin 0.5)
          else None
      | None => None
      end in
    match decision with
    | Some (signal, confidence) =>
        stop_loss <- calculate_stop_loss self df entry_price signal ;;
        let take_profit :=
          calculate_take_profit self entry_price stop_loss (Fin 3.0) in
        Ok (Some (mkSignal signal entry_price stop_loss take_profit
                    confidence [("rsi"%string, current_rsi)]))
    | None => Ok None
    end.

End RSIDivergenceStrategy.

(* ------------------------------------------------------------------ *)
(** ** Bollinger Squeeze ([src/strategies/bollinger_squeeze.py]) *)

Module BollingerSqueezeStrategy.

Record t : Type := mk {
  bb_period : Z;
  bb_std : num;
  atr_period : Z
}.

(** [__init__(self, bb_period=20, bb_std=2.0, atr_period=14)] *)
Definition init (bb_period : Z) (bb_std : num) (atr_period : Z)
  : result t :=
  Ok (mk bb_period bb_std atr_period).

Definition default : result t := init 20 (Fin 2.0) 14.

Definition calculate_stop_loss (self : t) (df : DataFrame)
  (entry_price : num) (signal : Direction) : result num :=
  atr <- calculate_atr (col high df) (col low df) (col close df)
           (atr_period self) ;;
  current_atr <- iloc atr (-1) ;;
  match signal with
  | long => Ok (entry_price - current_atr * Fin 1.3)
  | short => Ok (entry_price + current_atr * Fin 1.3)
  end.

Definition calculate_take_profit (self : t) (entry_price stop_loss : num)
  (risk_reward_ratio : num) : num :=
  let risk := Num.abs (entry_price - stop_loss) in
  let reward := risk * risk_reward_ratio in
  if entry_price >? stop_loss then entry_price + reward
  else entry_price - reward.

Definition generate_signal (self : t) (df : DataFrame)
  : result (option Signal) :=
  if (len df <? Z.max (bb_period self) (atr_period self) + 20)%Z
  then Ok None
  else
    (* Calculate indicators *)
    '(bb_upper, bb_middle, bb_lower) <-
      calculate_bollinger_bands (col close df) (bb_period self)
        (bb_std self) ;;
    atr <- calculate_atr (col high df) (col low df) (col close df)
             (atr_period self) ;;
    '(macd, signal_line, _) <- calculate_macd (col close df) 12 26 9 ;;
    (* the name [signal] holds the MACD signal line *)
    let signal : option Series := Some signal_line in
    current_price <- iloc (col close df) (-1) ;;
    current_upper <- iloc bb_upper (-1) ;;
    current_lower <- iloc bb_lower (-1) ;;
    (* Check for squeeze (narrow bands) *)
    let bb_width := (current_upper - current_lower) / current_price in
    rw <- rolling_mean (map2 div (map2 sub bb_upper bb_lower) (col close df))
            15 ;;
    avg_bb_width <- iloc rw (-1) ;;
    (* Check for low ATR (low volatility) *)
    current_atr <- iloc atr (-1) ;;
    ra <- rolling_mean atr 15 ;;
    avg_atr <- iloc ra (-1) ;;
    let is_squeeze :=
      (bb_width <? avg_bb_width * Fin 0.7)
      && (current_atr <? avg_atr * Fin 0.8) in
    if negb is_squeeze then Ok None
    else
      (* Check for breakout: [signal = None] binds the name again *)
      let signal : option Series := None in
      let entry_price := current_price in
      (* MACD confirmation *)
      macd_last <- iloc macd (-1) ;;
      signal_last <- attr_iloc signal (-1) ;;
      let macd_above := macd_last >? signal_last in
      let macd_cross :=
        if macd_above then macd_last >? Fin 0 else macd_last <? Fin 0 in
      decision <-
        (if (current_price >? current_upper) && macd_cross && macd_above
         then
           (* Long: breakout above upper band with MACD confirmation *)
           current_volume <- iloc (col volume df) (-1) ;;
           rv <- rolling_mean (col volume df) 10 ;;
           avg_volume <- iloc rv (-1) ;;
           Ok (Some (long, if current_volume >? avg_volume
                           then Fin 0.8 else Fin 0.6))
         else if (current_price <? current_lower) && macd_cross
                 && negb macd_above
         then
           (* Short: breakdown below lower band with MACD confirmation *)
           current_volume <- iloc (col volume df) (-1) ;;
           rv <- rolling_mean (col volume df) 10 ;;
           avg_volume <- iloc rv (-1) ;;
           Ok (Some (short, if current_volume >? avg_volume
                            then Fin 0.8 else Fin 0.6))
         else Ok None) ;;
      match decision with
      | Some (signal, confidence) =>
          stop_loss <- calculate_stop_loss self df entry_price signal ;;
          let take_profit :=
            calculate_take_profit self entry_price stop_loss (Fin 2.0) in
          Ok (Some (mkSignal signal entry_price stop_loss take_profit
                      confidence
                      [("bb_width"%string, bb_width);
                       ("atr_ratio"%string, current_atr / avg_atr)]))
      | None => Ok None
      end.

End BollingerSqueezeStrategy.

(* ------------------------------------------------------------------ *)
(** ** EMA Crossover ([src/strategies/ema_crossover.py]) *)

Module EMACrossoverStrategy.

Record t : Type := mk {
  fast_period : Z;
  slow_period : Z;
  volume_multiplier : num
}.

(** [__init__(self, fast_period=5, slow_period=20, volume_multiplier=1.5)] *)
Definition init (fast_period slow_period : Z) (volume_multiplier : num)
  : result t :=
  Ok (mk fast_period slow_period volume_multiplier).

Definition default : result t := init 5 20 (Fin 1.5).

Definition calculate_stop_loss (self : t) (df : DataFrame)
  (entry_price : num) (signal : Direction) : result num :=
  match signal with
  | long =>
      r <- rolling_min (col low df) 10 ;;
      recent_low <- iloc r (-1) ;;
      Ok (recent_low * Fin 0.995)
  | short =>
      r <- rolling_max (col high df) 10 ;;
      recent_high <- iloc r (-1) ;;
      Ok (recent_high * Fin 1.005)
  end.

Definition calculate_take_profit (self : t) (entry_price stop_loss : num)
  (risk_reward_ratio : num) : num :=
  let risk := Num.abs (entry_price - stop_loss) in
  let reward := risk * risk_reward_ratio in
  if entry_price >? stop_loss then entry_price + reward
  else entry_price - reward.

Definition generate_signal (self : t) (df : DataFrame)
  : result (option Signal) :=
  if (len df <? slow_period self + 5)%Z then Ok None
  else
    (* Calculate EMAs *)
    ema_fast <- calculate_ema (col close df) (fast_period self) ;;
    ema_slow <- calculate_ema (col close df) (slow_period self) ;;
    current_fast <- iloc ema_fast (-1) ;;
    current_slow <- iloc ema_slow (-1) ;;
    prev_fast <- iloc ema_fast (-2) ;;
    prev_slow <- iloc ema_slow (-2) ;;
    (* Check volume *)
    rv <- rolling_mean (col volume df) 10 ;;
    avg_volume <- iloc rv (-1) ;;
    current_volume <- iloc (col volume df) (-1) ;;
    if current_volume <? avg_volume * volume_multiplier self then Ok None
    else
      entry_price <- iloc (col close df) (-1) ;;
      let decision :=
        if (prev_fast <=? prev_slow) && (current_fast >? current_slow)
        then Some (long, if current_fast >? current_slow * Fin 1.01
                         then Fin 0.7 else Fin 0.5)
        else if (prev_fast >=? prev_slow) && (current_fast <? current_slow)
        then Some (short, if current_fast <? current_slow * Fin 0.99
                          then Fin 0.7 else Fin 0.5)
        else None in
      match decision with
      | Some (signal, confidence) =>
          stop_loss <- calculate_stop_loss self df entry_price signal ;;
          let take_profit :=
            calculate_take_profit self entry_price stop_loss (Fin 2.5) in
          Ok (Some (mkSignal signal entry_price stop_loss take_profit
                      confidence
                      [("ema_fast"%string, current_fast);
                       ("ema_slow"%string, current_slow)]))
      | None => Ok None
      end.

End EMACrossoverStrategy.

(* ------------------------------------------------------------------ *)
(** ** The strategy interface

    [main.py] holds the four strategies in one list and calls
    [generate_signal] on each of them through [BaseStrategy]; a strategy is
    one of four tagged implementations. *)

Inductive Strategy : Type :=
| VolumeBreakout (s : VolumeBreakoutStrategy.t)
| RSIDivergence (s : RSIDivergenceStrategy.t)
| BollingerSqueeze (s : BollingerSqueezeStrategy.t)
| EMACrossover (s : EMACrossoverStrategy.t).

Definition generate_signal (s : Strategy) (df : DataFrame)
  : result (option Signal) :=
  match s with
  | VolumeBreakout s => VolumeBreakoutStrategy.generate_signal s df
  | RSIDivergence s => RSIDivergenceStrategy.generate_signal s df
  | BollingerSqueeze s => BollingerSqueezeStrategy.generate_signal s df
  | EMACrossover s => EMACrossoverStrategy.generate_signal s df
  end.

Definition calculate_take_profit (s : Strategy)
  (entry_price stop_loss risk_reward_ratio : num) : num :=
  match s with
  | VolumeBreakout s =>
      VolumeBreakoutStrategy.calculate_take_profit s entry_price stop_loss
        risk_reward_ratio
  | RSIDivergence s =>
      RSIDivergenceStrategy.calculate_take_profit s entry_price stop_loss
        risk_reward_ratio
  | BollingerSqueeze s =>
      BollingerSqueezeStrategy.calculate_take_profit s entry_price stop_loss
        risk_reward_ratio
  | EMACrossover s =>
      EMACrossoverStrategy.calculate_take_profit s entry_price stop_loss
        risk_reward_ratio
  end.

(* ------------------------------------------------------------------ *)
(** ** What the specification says

    The definitions below are written from the words of the specification,
    to be compared with the code above. *)

(** A call is rejected when it raises. *)
Definition rejected {A : Type} (r : result A) : Prop :=
  exists e, r = Raise e.

(** Order on values as a proposition: [a <= b], false when one is NaN. *)
Definition num_le (a b : num) : Prop := Num.leb a b = true.
Definition num_lt (a b : num) : Prop := Num.ltb a b = true.

(** Section 4.2: reward = |entry - stop| * ratio; entry + reward if
    entry > stop, else entry - reward. *)
Definition take_profit_spec (entry stop ratio : num) : num :=
  let reward := Num.abs (entry - stop) * ratio in
  if entry >? stop then entry + reward else entry - reward.

(** Section 7: the minimum history of each strategy. *)
Definition required_history (s : Strategy) : Z :=
  match s with
  | VolumeBreakout _ => 20
  | RSIDivergence s => RSIDivergenceStrategy.rsi_period s + 20
  | BollingerSqueeze s =>
      Z.max (BollingerSqueezeStrategy.bb_period s)
            (BollingerSqueezeStrategy.atr_period s) + 20
  | EMACrossover s => EMACrossoverStrategy.slow_period s + 5
  end.

(** Section 4.3: confidence as a function of the volume ratio. *)
Definition volume_confidence (volume_ratio : num) : num :=
  py_min (Fin 0.9) (Fin 0.5 + (volume_ratio - Fin 2) * Fin 0.1).

(** The last [n] samples of a series. *)
Definition last_n {A : Type} (n : nat) (s : list A) : list A :=
  skipn (length s - n) s.

(** A series whose samples all equal [c]. *)
Definition flat (n : nat) (c : R) : Series := repeat (Fin c) n.

(** A flat market: [n] candles with every price at [c] and volume [v]. *)
Definition flat_candles (n : nat) (c v : R) : DataFrame :=
  repeat (mkCandle (Fin c) (Fin c) (Fin c) (Fin c) (Fin v)) n.

(** The invariant of section 3 on the prices of a signal. *)
Definition correct_sides (sig : Signal) : Prop :=
  match signal sig with
  | long => num_lt (stop_loss sig) (entry_price sig)
            /\ num_lt (entry_price sig) (take_profit sig)
  | short => num_lt (entry_price sig) (stop_loss sig)
             /\ num_lt (take_profit sig) (entry_price sig)
  end.

(** Section 3: a candle has finite, positive prices with
    [low <= min(open, close)] and [max(open, close) <= high], and a
    volume that is not negative. *)
Definition well_formed (c : Candle) : Prop :=
  exists o h l cl v : R,
    c = mkCandle (Fin o) (Fin h) (Fin l) (Fin cl) (Fin v)
    /\ (0 < l /\ l <= Rmin o cl /\ Rmax o cl <= h /\ 0 <= v)%R.

(** Section 4.5: the band width relative to the price, candle by candle. *)
Definition relative_band_width (self : BollingerSqueezeStrategy.t)
  (df : DataFrame) : result Series :=
  '(upper, _, lower) <-
    calculate_bollinger_bands (col close df)
      (BollingerSqueezeStrategy.bb_period self)
      (BollingerSqueezeStrategy.bb_std self) ;;
  Ok (map2 div (map2 sub upper lower) (col close df)).

(** Section 4.5: the squeeze.  The current relative band width is below
    70% of its 15-period rolling average and the current ATR is below 80%
    of its 15-period rolling average. *)
Definition squeeze_condition (self : BollingerSqueezeStrategy.t)
  (df : DataFrame) : result bool :=
  width <- relative_band_width self df ;;
  current_width <- iloc width (-1) ;;
  avg <- rolling_mean width 15 ;;
  avg_width <- iloc avg (-1) ;;
  atr <- calculate_atr (col high df) (col low df) (col close df)
           (BollingerSqueezeStrategy.atr_period self) ;;
  current_atr <- iloc atr (-1) ;;
  avg <- rolling_mean atr 15 ;;
  avg_atr <- iloc avg (-1) ;;
  Ok ((current_width <? avg_width * Fin 0.7)
      && (current_atr <? avg_atr * Fin 0.8)).

(** Section 8: the current close lies within the lower and upper bands. *)
Definition inside_bands (self : BollingerSqueezeStrategy.t)
  (df : DataFrame) : result bool :=
  '(upper, _, lower) <-
    calculate_bollinger_bands (col close df)
      (BollingerSqueezeStrategy.bb_period self)
      (BollingerSqueezeStrategy.bb_std self) ;;
  price <- iloc (col close df) (-1) ;;
  current_upper <- iloc upper (-1) ;;
  current_lower <- iloc lower (-1) ;;
  Ok ((current_lower <=? price) && (price <=? current_upper)).

(** Section 4.1, Bollinger Bands, on real samples: the simple moving
    average of a window, the sum of the squared deviations from it, and
    the two standard deviations, the population one (divisor N) and the
    sample one (divisor N - 1). *)
Definition Rsum (l : list R) : R := fold_right Rplus 0%R l.
Definition count (l : list R) : R := IZR (Z.of_nat (length l)).
Definition sma (l : list R) : R := (Rsum l / count l)%R.
Definition squared_deviations (l : list R) : R :=
  Rsum (map (fun x => (x - sma l) * (x - sma l))%R l).
Definition population_std (l : list R) : R :=
  R_sqrt.sqrt (squared_deviations l / count l)%R.
Definition sample_std (l : list R) : R :=
  R_sqrt.sqrt (squared_deviations l / (count l - 1))%R.
(** The [period] samples that end at position [i]. *)
Definition window (period : nat) (xs : list R) (i : nat) : list R :=
  firstn period (skipn (S i - period) xs).


(** Section 4.1, divergence.  The trailing [n] samples of a series with
    their positions, and those whose value is present or missing. *)
Definition trailing (n : nat) (s : Series) : LSeries :=
  skipn (length s - n) (labelled s).

Definition present (w : LSeries) : LSeries :=
  filter (fun e => negb (is_nan (snd e))) w.

(** The first sample that is at least as good as every other one, and
    the samples that remain; [better a b] reads "a is at least as good as
    b". *)
Fixpoint pick (better : num -> num -> bool) (w : LSeries)
  : option ((nat * num) * LSeries) :=
  match w with
  | [] => None
  | e :: t =>
      match pick better t with
      | None => Some (e, [])
      | Some (m, r) =>
          if better (snd e) (snd m) then Some (e, t) else Some (m, e :: r)
      end
  end.

(** The best sample and the best of the others. *)
Definition two_best (better : num -> num -> bool) (w : LSeries)
  : option ((nat * num) * (nat * num)) :=
  match pick better (present w) with
  | Some (a, r) =>
      match pick better r with
      | Some (b, _) => Some (a, b)
      | None => None
      end
  | None => None
  end.

(** The value of a series at the position of a sample. *)
Definition at_label (s : Series) (e : nat * num) : num := nth (fst e) s NaN.

(** The rule by rank: the second best price is compared with the best
    one by [t1], and the indicator values at their two positions by
    [t2]. *)
Definition ranked_test (better t1 t2 : num -> num -> bool)
  (prices indicator : Series) (n : nat) : bool :=
  match two_best better (trailing n prices) with
  | Some (best, second) =>
      t1 (snd second) (snd best)
      && t2 (at_label indicator second) (at_label indicator best)
  | None => false
  end.

Definition ranked_divergence (prices indicator : Series) (n : nat)
  : option Divergence :=
  if ranked_test Num.leb Num.gtb Num.ltb prices indicator n then Some bullish
  else if ranked_test Num.geb Num.ltb Num.gtb prices indicator n
       then Some bearish
       else None.


(** The rule of the specification: the two samples are compared in the
    order of time, the later one against the earlier one. *)
Definition chronological_test (better t1 t2 : num -> num -> bool)
  (prices indicator : Series) (n : nat) : bool :=
  match two_best better (trailing n prices) with
  | Some (a, b) =>
      let (earlier, later) := if (fst a <? fst b)%nat then (a, b) else (b, a) in
      t1 (snd later) (snd earlier)
      && t2 (at_label indicator later) (at_label indicator earlier)
  | None => false
  end.

Definition chronological_divergence (prices indicator : Series) (n : nat)
  : option Divergence :=
  if chronological_test Num.leb Num.gtb Num.ltb prices indicator n
  then Some bullish
  else if chronological_test Num.geb Num.ltb Num.gtb prices indicator n
       then Some bearish
       else None.

Definition missing (w : LSeries) : LSeries :=
  filter (fun e => is_nan (snd e)) w.

(** One of the two checks of [detect_divergence]: the indicator is read
    at the labels of the picked samples and the two comparisons are
    made. *)
Definition pattern_check (recent_indicator picked : LSeries)
  (t1 t2 : num -> num -> bool) : result bool :=
  ind <- loc recent_indicator (index picked) ;;
  (if (2 <=? length picked)%nat && (2 <=? length ind)%nat
   then
     p1 <- iloc (values picked) (-1) ;;
     p2 <- iloc (values picked) (-2) ;;
     i1 <- iloc (values ind) (-1) ;;
     i2 <- iloc (values ind) (-2) ;;
     Ok (t1 p1 p2 && t2 i1 i2)
   else Ok false).

(** The 10-period average volume at the last candle. *)
Definition average_volume (df : DataFrame) : num :=
  let w := last_n 10 (col volume df) in
  if existsb is_nan w then NaN else mean w.

(* ------------------------------------------------------------------ *)
(** ** Concrete inputs *)

Definition candle (o h l c v : R) : Candle :=
  mkCandle (Fin o) (Fin h) (Fin l) (Fin c) (Fin v).

(** Section 8: 24 quiet candles, then a close at 130 above the 20-period
    high of 110 on three times the usual volume. *)
Definition breakout_window : DataFrame :=
  repeat (candle 100 110 90 100 1000) 24 ++ [candle 100 130 100 130 3000].

(** Eight candles, the minimum history of an EMA Crossover strategy built
    with [fast_period=2, slow_period=3]: seven flat ones and a rise. *)
Definition short_window : DataFrame :=
  repeat (candle 10 10 10 10 100) 7 ++ [candle 10 13 10 13 100].

(** Twelve samples whose last ten hold a higher low in price (1, then 2)
    with a lower low in the indicator (40, then 30), and eight earlier
    samples. *)
Definition late_prices : Series :=
  map Fin [12; 11; 10; 9; 1; 8; 7; 6; 2; 5; 4; 3]%R.
Definition late_indicator : Series :=
  map Fin [50; 50; 50; 50; 40; 50; 50; 50; 30; 50; 50; 50]%R.
Definition early_prices : Series :=
  map Fin [20; 19; 18; 17; 16; 15; 14; 13]%R.
Definition early_indicator : Series := repeat (Fin 50) 8.

(** 24 flat candles at 100 but for one rise to 104 at position 15: the
    bands and the true range were wider a few candles ago than they are
    now, and the last close sits on the bands. *)
Definition squeeze_window : DataFrame :=
  repeat (candle 100 100 100 100 100) 15
  ++ [candle 100 104 100 104 100]
  ++ repeat (candle 100 100 100 100 100) 8.

(** Six samples whose last three hold the lowest price last: 2, 5, 1,
    with the indicator at 5, 7, 10. *)
Definition zigzag_prices : Series := map Fin [9; 9; 9; 2; 5; 1]%R.
Definition zigzag_indicator : Series := map Fin [0; 0; 0; 5; 7; 10]%R.

(** What [generate_signal] returns on [short_window]. *)
Definition short_window_signal : Signal :=
  mkSignal long (Fin 13) NaN NaN (Fin 0.7)
    [("ema_fast"%string, Fin 12); ("ema_slow"%string, Fin 11.5)].

(** What [generate_signal] returns on [breakout_window]. *)
Definition breakout_window_signal : Signal :=
  mkSignal long (Fin 130) (Fin 89.55) (Fin 210.9) (Fin 0.55)
    [("volume_ratio"%string, Fin 2.5)].

(* ------------------------------------------------------------------ *)
(** ** Closed real expressions

    The real constants met when the code runs on a concrete input are
    built from integer and decimal literals; their value is computed in
    the rationals.  A square root is computed when it is rational. *)

Module Closed.

Inductive expr : Type :=
| EZ (z : Z)
| EQ (q : Q)
| EAdd (a b : expr)
| ESub (a b : expr)
| EMul (a b : expr)
| EDiv (a b : expr)
| EOpp (a : expr)
| EInv (a : expr)
| EAbs (a : expr)
| EMax (a b : expr)
| EMin (a b : expr)
| ESqrt (a : expr).

Fixpoint denote (e : expr) : R :=
  match e with
  | EZ z => IZR z
  | EQ q => Q2R q
  | EAdd a b => denote a + denote b
  | ESub a b => denote a - denote b
  | EMul a b => denote a * denote b
  | EDiv a b => denote a / denote b
  | EOpp a => - denote a
  | EInv a => / denote a
  | EAbs a => Rabs (denote a)
  | EMax a b => Rmax (denote a) (denote b)
  | EMin a b => Rmin (denote a) (denote b)
  | ESqrt a => R_sqrt.sqrt (denote a)
  end%R.

Definition sqrt_exact (x : Q) : option Q :=
  let x := Qred x in
  let s := (Z.sqrt (Qnum x) # Pos.sqrt (Qden x))%Q in
  if Qeq_bool (s * s) x && Qle_bool 0 s then Some s else None.

Definition lift1 (f : Q -> option Q) (a : option Q) : option Q :=
  match a with Some x => f x | None => None end.

Definition lift2 (f : Q -> Q -> option Q) (a b : option Q) : option Q :=
  match a, b with Some x, Some y => f x y | _, _ => None end.

Fixpoint eval (e : expr) : option Q :=
  match e with
  | EZ z => Some (inject_Z z)
  | EQ q => Some q
  | EAdd a b => lift2 (fun x y => Some (Qred (x + y))) (eval a) (eval b)
  | ESub a b => lift2 (fun x y => Some (Qred (x - y))) (eval a) (eval b)
  | EMul a b => lift2 (fun x y => Some (Qred (x * y))) (eval a) (eval b)
  | EDiv a b =>
      lift2 (fun x y => if Qeq_bool y 0 then None else Some (Qred (x / y)))
            (eval a) (eval b)
  | EOpp a => lift1 (fun x => Some (- x)) (eval a)
  | EInv a =>
      lift1 (fun x => if Qeq_bool x 0 then None else Some (/ x)) (eval a)
  | EAbs a =>
      lift1 (fun x => Some (if Qle_bool 0 x then x else - x)) (eval a)
  | EMax a b =>
      lift2 (fun x y => Some (if Qle_bool x y then y else x))
            (eval a) (eval b)
  | EMin a b =>
      lift2 (fun x y => Some (if Qle_bool x y then x else y))
            (eval a) (eval b)
  | ESqrt a => lift1 sqrt_exact (eval a)
  end%Q.

Definition test (f : Q -> Q -> bool) (a b : expr) : option bool :=
  match eval a, eval b with
  | Some x, Some y => Some (f x y)
  | _, _ => None
  end.

Definition ltb : expr -> expr -> option bool :=
  test (fun x y => negb (Qle_bool y x)).
Definition leb : expr -> expr -> option bool := test Qle_bool.
Definition eqb : expr -> expr -> option bool := test Qeq_bool.

End Closed.

(* ================================================================== *)
(** * Proofs *)

(** ** Deciding comparisons of real constants *)

Lemma Rltb_true x y : (x < y)%R -> Rltb x y = true.
Proof. unfold Rltb; destruct (Rlt_dec x y); tauto. Qed.

Lemma Rltb_false x y : ~ (x < y)%R -> Rltb x y = false.
Proof. unfold Rltb; destruct (Rlt_dec x y); tauto. Qed.

Lemma Rleb_true x y : (x <= y)%R -> Rleb x y = true.
Proof. unfold Rleb; destruct (Rle_dec x y); tauto. Qed.

Lemma Rleb_false x y : ~ (x <= y)%R -> Rleb x y = false.
Proof. unfold Rleb; destruct (Rle_dec x y); tauto. Qed.

Lemma Reqb_true x y : x = y -> Reqb x y = true.
Proof. unfold Reqb; destruct (Req_dec_T x y); tauto. Qed.

Lemma Reqb_false x y : x <> y -> Reqb x y = false.
Proof. unfold Reqb; destruct (Req_dec_T x y); tauto. Qed.

Lemma Rltb_spec x y : reflect (x < y)%R (Rltb x y).
Proof. unfold Rltb; destruct (Rlt_dec x y); constructor; assumption. Qed.

Lemma Rleb_spec x y : reflect (x <= y)%R (Rleb x y).
Proof. unfold Rleb; destruct (Rle_dec x y); constructor; assumption. Qed.

Lemma Reqb_spec x y : reflect (x = y) (Reqb x y).
Proof. unfold Reqb; destruct (Req_dec_T x y); constructor; assumption. Qed.

(** Case analysis on every comparison of reals in the goal. *)
Ltac rcases :=
  repeat match goal with
    | |- context [Rltb ?a ?b] => destruct (Rltb_spec a b)
    | |- context [Rleb ?a ?b] => destruct (Rleb_spec a b)
    | |- context [Reqb ?a ?b] => destruct (Reqb_spec a b)
    | H : context [Rltb ?a ?b] |- _ => destruct (Rltb_spec a b)
    | H : context [Rleb ?a ?b] |- _ => destruct (Rleb_spec a b)
    | H : context [Reqb ?a ?b] |- _ => destruct (Reqb_spec a b)
    end.

(** ** Evaluation on concrete inputs

    The code is run on a concrete input in rounds: the list structure is
    computed, then the arithmetic on known values, then the comparisons of
    the resulting real constants are decided in the rationals. *)

Module ClosedFacts.
Import Closed.

Lemma Some_inj {A : Type} (a b : A) : Some a = Some b -> a = b.
Proof. congruence. Qed.

Lemma Q2R_inject_Z (z : Z) : Q2R (inject_Z z) = IZR z.
Proof. unfold Q2R, inject_Z; simpl. field. Qed.

Lemma Q2R_Qred (q : Q) : Q2R (Qred q) = Q2R q.
Proof. apply Qeq_eqR, Qred_correct. Qed.

Lemma Qeq_bool_false_neq (x y : Q) : Qeq_bool x y = false -> ~ (x == y)%Q.
Proof. intros H E; apply Qeq_bool_iff in E; congruence. Qed.

Lemma Qle_bool_false_lt (x y : Q) : Qle_bool x y = false -> (y < x)%Q.
Proof.
  intros H; apply Qnot_le_lt; intros E; apply Qle_bool_iff in E; congruence.
Qed.

Lemma sqrt_exact_sound (x s : Q) :
  sqrt_exact x = Some s -> R_sqrt.sqrt (Q2R x) = Q2R s.
Proof.
  unfold sqrt_exact.
  set (c := (Z.sqrt (Qnum (Qred x)) # Pos.sqrt (Qden (Qred x)))%Q).
  destruct (Qeq_bool (c * c) (Qred x)) eqn:E; [|discriminate].
  destruct (Qle_bool 0 c) eqn:P; [|discriminate].
  intros H; apply Some_inj in H; subst s.
  apply Qeq_bool_iff, Qeq_eqR in E.
  rewrite Q2R_mult, Q2R_Qred in E.
  apply Qle_bool_iff, Qle_Rle in P.
  rewrite RMicromega.Q2R_0 in P.
  apply sqrt_lem_1; [rewrite <- E; nra | assumption | assumption].
Qed.

Lemma eval_sound (e : expr) :
  forall q, eval e = Some q -> denote e = Q2R q.
Proof.
  induction e; cbn [eval denote]; intros r H;
    repeat match goal with
      | H : lift2 _ ?a ?b = Some _ |- _ =>
          destruct a as [?x|]; [destruct b as [?y|]|]; cbn [lift2] in H;
          try discriminate
      | H : lift1 _ ?a = Some _ |- _ =>
          destruct a as [?x|]; cbn [lift1] in H; try discriminate
      | IH : forall q, Some ?x = Some q -> _ |- _ =>
          specialize (IH x eq_refl)
      end.
  - apply Some_inj in H; subst r; symmetry; apply Q2R_inject_Z.
  - apply Some_inj in H; subst r; reflexivity.
  - apply Some_inj in H; subst r. rewrite Q2R_Qred, Q2R_plus; congruence.
  - apply Some_inj in H; subst r. rewrite Q2R_Qred, Q2R_minus; congruence.
  - apply Some_inj in H; subst r. rewrite Q2R_Qred, Q2R_mult; congruence.
  - destruct (Qeq_bool y 0) eqn:E; [discriminate|].
    apply Some_inj in H; subst r.
    rewrite Q2R_Qred, Q2R_div by (apply Qeq_bool_false_neq, E); congruence.
  - apply Some_inj in H; subst r. rewrite Q2R_opp; congruence.
  - destruct (Qeq_bool x 0) eqn:E; [discriminate|].
    apply Some_inj in H; subst r.
    rewrite Q2R_inv by (apply Qeq_bool_false_neq, E); congruence.
  - apply Some_inj in H; subst r. rewrite IHe.
    destruct (Qle_bool 0 x) eqn:E.
    + apply Qle_bool_iff, Qle_Rle in E. rewrite RMicromega.Q2R_0 in E.
      apply Rabs_pos_eq, E.
    + apply Qle_bool_false_lt, Qlt_Rlt in E.
      rewrite RMicromega.Q2R_0 in E.
      rewrite Q2R_opp. apply Rabs_left, E.
  - apply Some_inj in H; subst r. rewrite IHe1, IHe2.
    destruct (Qle_bool x y) eqn:E.
    + apply Qle_bool_iff, Qle_Rle in E. apply Rmax_right, E.
    + apply Qle_bool_false_lt, Qlt_Rlt in E. apply Rmax_left; lra.
  - apply Some_inj in H; subst r. rewrite IHe1, IHe2.
    destruct (Qle_bool x y) eqn:E.
    + apply Qle_bool_iff, Qle_Rle in E. apply Rmin_left, E.
    + apply Qle_bool_false_lt, Qlt_Rlt in E. apply Rmin_right; lra.
  - rewrite IHe. apply sqrt_exact_sound, H.
Qed.

Lemma ltb_sound (a b : expr) (v : bool) :
  Closed.ltb a b = Some v -> Rltb (denote a) (denote b) = v.
Proof.
  unfold Closed.ltb, test.
  destruct (eval a) as [x|] eqn:Ea; [|discriminate].
  destruct (eval b) as [y|] eqn:Eb; [|discriminate].
  intros H; injection H as <-.
  rewrite (eval_sound _ _ Ea), (eval_sound _ _ Eb).
  destruct (Qle_bool y x) eqn:E; simpl.
  - apply Qle_bool_iff, Qle_Rle in E. apply Rltb_false; lra.
  - apply Qle_bool_false_lt, Qlt_Rlt in E. apply Rltb_true, E.
Qed.

Lemma leb_sound (a b : expr) (v : bool) :
  Closed.leb a b = Some v -> Rleb (denote a) (denote b) = v.
Proof.
  unfold Closed.leb, test.
  destruct (eval a) as [x|] eqn:Ea; [|discriminate].
  destruct (eval b) as [y|] eqn:Eb; [|discriminate].
  intros H; injection H as <-.
  rewrite (eval_sound _ _ Ea), (eval_sound _ _ Eb).
  destruct (Qle_bool x y) eqn:E.
  - apply Qle_bool_iff, Qle_Rle in E. apply Rleb_true, E.
  - apply Qle_bool_false_lt, Qlt_Rlt in E. apply Rleb_false; lra.
Qed.

Lemma eqb_sound (a b : expr) (v : bool) :
  Closed.eqb a b = Some v -> Reqb (denote a) (denote b) = v.
Proof.
  unfold Closed.eqb, test.
  destruct (eval a) as [x|] eqn:Ea; [|discriminate].
  destruct (eval b) as [y|] eqn:Eb; [|discriminate].
  intros H; injection H as <-.
  rewrite (eval_sound _ _ Ea), (eval_sound _ _ Eb).
  destruct (Qeq_bool x y) eqn:E.
  - apply Qeq_bool_iff, Qeq_eqR in E. apply Reqb_true, E.
  - apply Reqb_false. intros F. apply eqR_Qeq in F.
    apply Qeq_bool_iff in F. congruence.
Qed.

Lemma eq_sound (a b : expr) :
  Closed.eqb a b = Some true -> denote a = denote b.
Proof.
  intros H. apply eqb_sound in H.
  destruct (Reqb_spec (denote a) (denote b)); [assumption|discriminate].
Qed.

End ClosedFacts.

Ltac reify t :=
  lazymatch t with
  | (?a + ?b)%R =>
      let x := reify a in let y := reify b in constr:(Closed.EAdd x y)
  | (?a - ?b)%R =>
      let x := reify a in let y := reify b in constr:(Closed.ESub x y)
  | (?a * ?b)%R =>
      let x := reify a in let y := reify b in constr:(Closed.EMul x y)
  | (?a / ?b)%R =>
      let x := reify a in let y := reify b in constr:(Closed.EDiv x y)
  | (- ?a)%R => let x := reify a in constr:(Closed.EOpp x)
  | (/ ?a)%R => let x := reify a in constr:(Closed.EInv x)
  | Rabs ?a => let x := reify a in constr:(Closed.EAbs x)
  | Rmax ?a ?b =>
      let x := reify a in let y := reify b in constr:(Closed.EMax x y)
  | Rmin ?a ?b =>
      let x := reify a in let y := reify b in constr:(Closed.EMin x y)
  | R_sqrt.sqrt ?a => let x := reify a in constr:(Closed.ESqrt x)
  | IZR ?z => constr:(Closed.EZ z)
  | Q2R ?q => constr:(Closed.EQ q)
  end.

Ltac rtest sound op a b :=
  let ea := reify a in
  let eb := reify b in
  let v := eval vm_compute in (op ea eb) in
  lazymatch v with
  | Some ?r =>
      let H := fresh "H" in
      assert (H := sound ea eb r (@eq_refl (option bool) (Some r) <: op ea eb = Some r));
      cbv [Closed.denote] in H;
      rewrite H; clear H
  end.

Ltac rdecide :=
  match goal with
  | |- context [Rltb ?a ?b] => rtest ClosedFacts.ltb_sound Closed.ltb a b
  | |- context [Rleb ?a ?b] => rtest ClosedFacts.leb_sound Closed.leb a b
  | |- context [Reqb ?a ?b] => rtest ClosedFacts.eqb_sound Closed.eqb a b
  end.

(** Closes [x = y] for closed reals. *)
Ltac req :=
  lazymatch goal with
  | |- ?a = ?b =>
      let ea := reify a in
      let eb := reify b in
      exact (ClosedFacts.eq_sound ea eb
               (@eq_refl (option bool) (Some true)
                <: Closed.eqb ea eb = Some true))
  end.


Ltac is_val x :=
  lazymatch x with
  | Fin _ => idtac
  | NaN => idtac
  | PInf => idtac
  | NInf => idtac
  end.

Ltac cbv_real t :=
  eval cbv -[Rplus Rminus Rmult Rdiv Ropp Rinv IZR Rabs Rmax Rmin R_sqrt.sqrt
             Rltb Rleb Reqb Q2R] in t.

Ltac op1 f a :=
  is_val a; let r := cbv_real (f a) in change (f a) with r.

Ltac op2 f a b :=
  is_val a; is_val b; let r := cbv_real (f a b) in change (f a b) with r.

Ltac scalar_step :=
  match goal with
  | |- context [Num.add ?a ?b] => op2 Num.add a b
  | |- context [Num.sub ?a ?b] => op2 Num.sub a b
  | |- context [Num.mul ?a ?b] => op2 Num.mul a b
  | |- context [Num.div ?a ?b] => op2 Num.div a b
  | |- context [Num.neg ?a] => op1 Num.neg a
  | |- context [Num.abs ?a] => op1 Num.abs a
  | |- context [Num.sqrt ?a] => op1 Num.sqrt a
  | |- context [Num.is_nan ?a] => op1 Num.is_nan a
  | |- context [Num.ltb ?a ?b] => op2 Num.ltb a b
  | |- context [Num.leb ?a ?b] => op2 Num.leb a b
  | |- context [Num.gtb ?a ?b] => op2 Num.gtb a b
  | |- context [Num.geb ?a ?b] => op2 Num.geb a b
  | |- context [Num.eqb ?a ?b] => op2 Num.eqb a b
  | |- context [fmax ?a ?b] => op2 fmax a b
  | |- context [fmin ?a ?b] => op2 fmin a b
  | |- context [nanmax ?a ?b] => op2 nanmax a b
  | |- context [Num.py_min ?a ?b] => op2 Num.py_min a b
  | |- context [Num.py_max ?a ?b] => op2 Num.py_max a b
  end.

Ltac structural :=
  cbv -[Rplus Rminus Rmult Rdiv Ropp Rinv IZR Rabs Rmax Rmin R_sqrt.sqrt
        Rltb Rleb Reqb Q2R
        Num.add Num.sub Num.mul Num.div Num.neg Num.abs Num.sqrt
        Num.ltb Num.leb Num.gtb Num.geb Num.eqb
        fmax fmin nanmax Num.py_min Num.py_max].

Ltac run :=
  repeat (structural; repeat scalar_step; repeat rdecide; cbv beta iota).

(** Evaluation that follows the control flow: the bound expression of a
    [let], the first action of a sequence and the condition of an [if] are
    evaluated before what depends on them, and a branch that is not taken
    is not evaluated. *)

Lemma bind_Ok {A B : Type} (a : A) (k : A -> result B) : bind (Ok a) k = k a.
Proof. reflexivity. Qed.

Ltac head_unfold :=
  lazymatch goal with
  | |- detect_divergence _ _ _ = _ => cbv beta delta [detect_divergence]
  | |- VolumeBreakoutStrategy.generate_signal _ _ = _ =>
      cbv beta delta [VolumeBreakoutStrategy.generate_signal]
  | |- RSIDivergenceStrategy.generate_signal _ _ = _ =>
      cbv beta delta [RSIDivergenceStrategy.generate_signal]
  | |- BollingerSqueezeStrategy.generate_signal _ _ = _ =>
      cbv beta delta [BollingerSqueezeStrategy.generate_signal]
  | |- EMACrossoverStrategy.generate_signal _ _ = _ =>
      cbv beta delta [EMACrossoverStrategy.generate_signal]
  | |- generate_signal _ _ = _ => cbv beta delta [generate_signal]
  | |- squeeze_condition _ _ = _ => cbv beta delta [squeeze_condition]
  | |- inside_bands _ _ = _ => cbv beta delta [inside_bands]
  | |- relative_band_width _ _ = _ => cbv beta delta [relative_band_width]
  | |- calculate_bollinger_bands _ _ _ = _ =>
      cbv beta delta [calculate_bollinger_bands]
  | |- calculate_atr _ _ _ _ = _ => cbv beta delta [calculate_atr]
  end.

Ltac eval_sub t :=
  let H := fresh "H" in
  eassert (H : t = _); [ hrun; reflexivity | rewrite H; clear H ]
with hrun :=
  lazymatch goal with
  | |- (let x := ?e in @?b x) = ?r =>
      eval_sub e;
      lazymatch goal with
      | |- (let x := ?v in @?b x) = ?r => change (b v = r); cbv beta
      end;
      hrun
  | |- bind (Ok ?a) ?k = ?r => change (k a = r); cbv beta; hrun
  | |- bind (Raise _) _ = _ => run
  | |- bind ?m _ = _ => eval_sub m; hrun
  | |- (if true then ?a else _) = ?r => change (a = r); hrun
  | |- (if false then _ else ?b) = ?r => change (b = r); hrun
  | |- (if ?c then _ else _) = _ => eval_sub c; hrun
  | |- _ => first [ head_unfold; hrun | run ]
  end.



(** ** The error monad *)

Lemma bind_Ok_inv {A B : Type} (m : result A) (k : A -> result B) (b : B) :
  bind m k = Ok b -> exists a, m = Ok a /\ k a = Ok b.
Proof. destruct m as [a|e]; simpl; intros H; [eauto | discriminate]. Qed.

(** Split an equation [x <- m ;; k = Ok b] in a hypothesis. *)
Ltac bind_inv H :=
  let a := fresh "a" in
  let E := fresh "E" in
  apply bind_Ok_inv in H; destruct H as (a & E & H).

(* ------------------------------------------------------------------ *)
(** ** Take-profit (section 4.2) *)

Lemma take_profit_spec_finite (e s r : R) :
  take_profit_spec (Fin e) (Fin s) (Fin r)
  = Fin (if Rlt_dec s e then e + Rabs (e - s) * r
         else e - Rabs (e - s) * r)%R.
Proof.
  unfold take_profit_spec, Num.gtb, Num.ltb, Rltb; simpl.
  destruct (Rlt_dec s e); reflexivity.
Qed.

(** C6. The four [calculate_take_profit] methods are one function: each
    returns [entry + |entry - stop| * ratio] when [entry > stop] and
    [entry - |entry - stop| * ratio] otherwise, on all values and, spelled
    out on real numbers, on the finite ones. *)
Theorem calculate_take_profit_all_strategies :
  forall (s : Strategy),
    (forall entry_price stop_loss risk_reward_ratio : num,
        calculate_take_profit s entry_price stop_loss risk_reward_ratio
        = take_profit_spec entry_price stop_loss risk_reward_ratio)
    /\ (forall e st r : R,
           calculate_take_profit s (Fin e) (Fin st) (Fin r)
           = Fin (if Rlt_dec st e then e + Rabs (e - st) * r
                  else e - Rabs (e - st) * r)%R).
Proof.
  intros s; split.
  - intros; destruct s; reflexivity.
  - intros; rewrite <- take_profit_spec_finite; destruct s; reflexivity.
Qed.

(* ------------------------------------------------------------------ *)
(** ** Insufficient history (section 7) *)

(** C7. A window shorter than the strategy's minimum history makes
    [generate_signal] return [None]; nothing is raised. *)
Theorem generate_signal_insufficient_history :
  forall (s : Strategy) (df : DataFrame),
    (len df < required_history s)%Z ->
    generate_signal s df = Ok None.
Proof.
  intros s df H.
  apply Z.ltb_lt in H.
  destruct s as [s|s|s|s]; simpl in *;
    [ unfold VolumeBreakoutStrategy.generate_signal
    | unfold RSIDivergenceStrategy.generate_signal
    | unfold BollingerSqueezeStrategy.generate_signal
    | unfold EMACrossoverStrategy.generate_signal ];
    rewrite H; reflexivity.
Qed.

Lemma generate_signal_insufficient_history_witness :
  generate_signal (EMACrossover (EMACrossoverStrategy.mk 5 20 (Fin 1.5)))
    (flat_candles 24 100 1000) = Ok None.
Proof.
  apply generate_signal_insufficient_history.
  vm_compute. reflexivity.
Defined.

(* ------------------------------------------------------------------ *)
(** ** Construction (section 7, InvalidParameter) *)

(** C3, as the specification states it, fails: a strategy is built from a
    negative fast period, a zero slow period and a negative multiplier. *)
Lemma init_accepts_non_positive_parameters :
  ~ rejected (EMACrossoverStrategy.init (-5) 0 (Fin (-1))).
Proof. intros [e H]; discriminate H. Qed.

(** C3, amended. No constructor validates anything: each one succeeds on
    every argument and stores the arguments as they are, neither rejected
    nor clamped. *)
Theorem init_stores_parameters_unchanged :
  (forall volume_multiplier,
      VolumeBreakoutStrategy.init volume_multiplier
      = Ok (VolumeBreakoutStrategy.mk volume_multiplier))
  /\ (forall rsi_period rsi_oversold rsi_overbought,
         RSIDivergenceStrategy.init rsi_period rsi_oversold rsi_overbought
         = Ok (RSIDivergenceStrategy.mk rsi_period rsi_oversold
                 rsi_overbought))
  /\ (forall bb_period bb_std atr_period,
         BollingerSqueezeStrategy.init bb_period bb_std atr_period
         = Ok (BollingerSqueezeStrategy.mk bb_period bb_std atr_period))
  /\ (forall fast_period slow_period volume_multiplier,
         EMACrossoverStrategy.init fast_period slow_period volume_multiplier
         = Ok (EMACrossoverStrategy.mk fast_period slow_period
                 volume_multiplier)).
Proof. repeat split. Qed.

(* ------------------------------------------------------------------ *)
(** ** Divergence on a short series *)

(** C10. A price series shorter than twice the lookback is answered with
    [None], whatever its last [lookback] samples look like. *)
Theorem detect_divergence_short_series :
  forall (prices indicator : Series) (lookback : Z),
    (len prices < 2 * lookback)%Z ->
    detect_divergence prices indicator lookback = Ok None.
Proof.
  intros prices indicator lookback H.
  unfold detect_divergence.
  replace (len prices <? lookback * 2)%Z with true; [reflexivity|].
  symmetry; apply Z.ltb_lt; lia.
Qed.

Lemma detect_divergence_short_series_witness :
  detect_divergence late_prices late_indicator 10 = Ok None
  /\ detect_divergence (early_prices ++ late_prices)
       (early_indicator ++ late_indicator) 10 = Ok (Some bullish).
Proof.
  split.
  - apply detect_divergence_short_series. vm_compute. reflexivity.
  - hrun. reflexivity.
Defined.

(* ------------------------------------------------------------------ *)
(** ** RSI on a flat series (sections 4.1 and 8) *)

(** One RSI value from the mean gain and the mean loss of its window. *)
Lemma rsi_zero_loss_positive_gain (g : R) :
  (0 < g)%R ->
  Fin 100 - Fin 100 / (Fin 1 + Fin g / Fin 0) = Fin 100.
Proof.
  intros Hg. unfold Num.div at 2, Rsign.
  rewrite (Reqb_true 0 0), (Rltb_false g 0), (Rltb_true 0 g) by lra.
  cbn. f_equal. lra.
Qed.

Lemma rsi_zero_loss_zero_gain :
  Fin 100 - Fin 100 / (Fin 1 + Fin 0 / Fin 0) = NaN.
Proof.
  unfold Num.div at 2, Rsign.
  rewrite (Reqb_true 0 0), (Rltb_false 0 0) by lra.
  reflexivity.
Qed.

(** A rising series has no loss: the division by the zero mean loss gives
    an infinity and the RSI is 100 where the window is complete. *)
Lemma calculate_rsi_rising :
  calculate_rsi (map Fin [1; 2; 3; 4; 5]%R) 3
  = Ok [NaN; NaN; Fin 100; Fin 100; Fin 100].
Proof. run. repeat f_equal; req. Qed.

(** C1 fails on the code.  On the flat series of section 8 (30 closes at
    100, period 14) the mean gain and the mean loss are both zero wherever
    the window is complete, the quotient 0/0 is NaN, and so is every RSI
    value: none is 100. *)
Theorem calculate_rsi_flat_is_nan :
  calculate_rsi (flat 30 100) 14 = Ok (repeat NaN 30).
Proof. run. reflexivity. Qed.

(* ------------------------------------------------------------------ *)
(** ** Positional access and rolling windows *)

Lemma iloc_last (s : Series) :
  s <> [] -> iloc s (-1) = Ok (last s NaN).
Proof.
  intros Hs. unfold iloc, len.
  destruct (exists_last Hs) as (s' & x & ->).
  rewrite last_last, length_app; simpl.
  replace (Z.of_nat (length s' + 1) + -1)%Z with (Z.of_nat (length s'))
    by lia.
  destruct (Z.of_nat (length s') <? 0)%Z eqn:E;
    [apply Z.ltb_lt in E; lia|].
  rewrite Nat2Z.id, nth_error_app2, Nat.sub_diag by lia.
  reflexivity.
Qed.

Lemma iloc_map_seq (f : nat -> num) (n : nat) (k : Z) :
  (0 < k <= Z.of_nat n)%Z ->
  iloc (map f (seq 0 n)) (- k) = Ok (f (n - Z.to_nat k)%nat).
Proof.
  intros Hk. unfold iloc, len.
  rewrite length_map, length_seq.
  destruct (- k <? 0)%Z eqn:E; [|apply Z.ltb_ge in E; lia].
  destruct (Z.of_nat n + - k <? 0)%Z eqn:E2;
    [apply Z.ltb_lt in E2; lia|].
  replace (Z.to_nat (Z.of_nat n + - k)) with (n - Z.to_nat k)%nat by lia.
  rewrite nth_error_map, nth_error_seq.
  destruct (n - Z.to_nat k <? n)%nat eqn:E3; [reflexivity|].
  apply Nat.ltb_ge in E3; lia.
Qed.

Lemma window_at_last (w : nat) (s : Series) :
  (w <= length s)%nat ->
  window_at w s (length s - 1) = last_n w s.
Proof.
  intros Hw. unfold window_at, last_n.
  destruct s as [|x s]; [destruct w; [reflexivity|simpl in Hw; lia]|].
  replace (S (length (x :: s) - 1) - w)%nat with (length (x :: s) - w)%nat
    by (cbn [length]; lia).
  apply firstn_all2. rewrite length_skipn. lia.
Qed.

(** The last value of a rolling aggregate is the aggregate of the last
    [w] samples, or NaN when one of them is missing. *)
Lemma iloc_rolling_apply_last (w : nat) (agg : list num -> num) (s : Series) :
  s <> [] -> (w <= length s)%nat ->
  iloc (rolling_apply w agg s) (-1)
  = Ok (if existsb is_nan (last_n w s) then NaN else agg (last_n w s)).
Proof.
  intros Hs Hw. unfold rolling_apply.
  assert (Hn : (0 < length s)%nat) by (destruct s; simpl; [congruence|lia]).
  rewrite (iloc_map_seq _ _ 1) by lia.
  change (Z.to_nat 1) with 1%nat.
  rewrite window_at_last by assumption.
  destruct (S (length s - 1) <? w)%nat eqn:E; [|reflexivity].
  apply Nat.ltb_lt in E; lia.
Qed.

(** While the series is shorter than the window, the rolling aggregate is
    missing at every position. *)
Lemma rolling_apply_short (w : nat) (agg : list num -> num) (s : Series) :
  (length s < w)%nat ->
  rolling_apply w agg s = repeat NaN (length s).
Proof.
  intros Hw. unfold rolling_apply.
  transitivity (map (fun _ : nat => NaN) (seq 0 (length s))).
  - apply map_ext_in. intros i Hi. apply in_seq in Hi.
    destruct (S i <? w)%nat eqn:E; [reflexivity|].
    apply Nat.ltb_ge in E; lia.
  - rewrite map_const, length_seq. reflexivity.
Qed.

(* ------------------------------------------------------------------ *)
(** ** Stop-loss and take-profit sides (section 3) *)

Ltac well_formed_candles :=
  repeat constructor;
  match goal with
  | |- well_formed (candle ?o ?h ?l ?c ?v) =>
      exists o, h, l, c, v; split; [reflexivity|];
      unfold Rmin, Rmax; repeat destruct (Rle_dec _ _); lra
  end.

Lemma short_window_well_formed : Forall well_formed short_window.
Proof. unfold short_window; cbn [repeat app]. well_formed_candles. Qed.

Lemma breakout_window_well_formed : Forall well_formed breakout_window.
Proof. unfold breakout_window; cbn [repeat app]. well_formed_candles. Qed.

(** C2 fails on the code.  An EMA Crossover strategy built with
    [fast_period=2, slow_period=3] asks for 8 candles, fewer than the 10 of
    its rolling windows: on 8 well-formed candles with positive prices
    the 10-period average volume is NaN, the volume test passes because a
    comparison with NaN is false, and the long signal carries a NaN
    stop-loss and a NaN take-profit, neither of them on any side of the
    entry price. *)
Theorem ema_crossover_short_window_breaks_sides :
  Forall well_formed short_window
  /\ (len short_window >= required_history
        (EMACrossover (EMACrossoverStrategy.mk 2 3 (Fin 1.5))))%Z
  /\ generate_signal (EMACrossover (EMACrossoverStrategy.mk 2 3 (Fin 1.5)))
       short_window = Ok (Some short_window_signal)
  /\ ~ correct_sides short_window_signal.
Proof.
  split; [exact short_window_well_formed|].
  split; [vm_compute; discriminate|].
  split.
  - hrun. unfold short_window_signal. repeat f_equal; req.
  - unfold correct_sides, num_lt; simpl. intros [H _]; discriminate H.
Qed.

(* ------------------------------------------------------------------ *)
(** ** Volume Breakout confidence (sections 4.3 and 8) *)

Lemma Rsign_pos (x : R) : (0 < x)%R -> Rsign x = Gt.
Proof.
  intros H. unfold Rsign.
  rewrite (Rltb_false x 0), (Rltb_true 0 x) by lra. reflexivity.
Qed.

(** The confidence, value by value. *)
Lemma volume_confidence_Fin (x : R) :
  volume_confidence (Fin x)
  = Fin (Rmin 0.9 (0.5 + (x - 2) * 0.1)).
Proof.
  unfold volume_confidence, py_min; cbn.
  unfold Rmin.
  destruct (Rltb_spec (0.5 + (x + - (2)) * 0.1) 0.9);
    destruct (Rle_dec 0.9 (0.5 + (x - 2) * 0.1)); f_equal; lra.
Qed.

Lemma volume_confidence_PInf : volume_confidence PInf = Fin 0.9.
Proof.
  unfold volume_confidence, py_min; cbn.
  rewrite (Rsign_pos 0.1) by lra. reflexivity.
Qed.

Lemma volume_confidence_NInf : volume_confidence NInf = NInf.
Proof.
  unfold volume_confidence, py_min; cbn.
  rewrite (Rsign_pos 0.1) by lra. reflexivity.
Qed.

Lemma volume_confidence_NaN : volume_confidence NaN = Fin 0.9.
Proof. reflexivity. Qed.

Lemma volume_confidence_le_cap (r : num) :
  num_le (volume_confidence r) (Fin 0.9).
Proof.
  unfold num_le.
  destruct r as [x| | |];
    rewrite ?volume_confidence_Fin, ?volume_confidence_PInf,
      ?volume_confidence_NInf, ?volume_confidence_NaN; cbn;
    try reflexivity; apply Rleb_true; try lra.
  apply Rmin_l.
Qed.

Lemma volume_confidence_monotone (r1 r2 : num) :
  num_le r1 r2 -> num_le (volume_confidence r1) (volume_confidence r2).
Proof.
  unfold num_le.
  destruct r1 as [x| | |], r2 as [y| | |]; cbn; intros H;
    try discriminate H;
    rewrite ?volume_confidence_Fin, ?volume_confidence_PInf,
      ?volume_confidence_NInf, ?volume_confidence_NaN; cbn;
    try reflexivity; apply Rleb_true; try lra.
  - destruct (Rleb_spec x y); [|discriminate].
    unfold Rmin; repeat destruct (Rle_dec _ _); lra.
  - apply Rmin_l.
Qed.

Lemma rolling_mean_10 (s : Series) :
  rolling_mean s 10 = Ok (rolling_apply 10 mean s).
Proof. reflexivity. Qed.

(** C8. When Volume Breakout returns a signal, its confidence is
    [min(0.9, 0.5 + (volume_ratio - 2) * 0.1)] with [volume_ratio] the
    last volume divided by the mean of the last 10 volumes; that function
    of the ratio never exceeds 0.9 and is non-decreasing. *)
Theorem volume_breakout_confidence :
  forall (self : VolumeBreakoutStrategy.t) (df : DataFrame) (sig : Signal),
    VolumeBreakoutStrategy.generate_signal self df = Ok (Some sig) ->
    (exists current_volume,
        iloc (col volume df) (-1) = Ok current_volume
        /\ confidence sig
           = volume_confidence (current_volume / average_volume df)
        /\ confidence sig
           = py_min (Fin 0.9)
               (Fin 0.5
                + (current_volume / average_volume df - Fin 2) * Fin 0.1))
    /\ num_le (confidence sig) (Fin 0.9)
    /\ (forall r1 r2 : num,
           num_le r1 r2 ->
           num_le (volume_confidence r1) (volume_confidence r2)).
Proof.
  intros self df sig H.
  unfold VolumeBreakoutStrategy.generate_signal in H.
  destruct (len df <? 20)%Z eqn:Elen; [discriminate H|].
  apply Z.ltb_ge in Elen. unfold len in Elen.
  rewrite rolling_mean_10 in H. cbn [bind] in H.
  rewrite iloc_rolling_apply_last in H;
    [ | destruct df; [simpl in Elen; lia | discriminate]
      | unfold col; rewrite length_map; lia ].
  cbn [bind] in H.
  fold (average_volume df) in H.
  destruct (iloc (col volume df) (-1)) as [current_volume|e] eqn:Ecv;
    [|discriminate H].
  cbn [bind] in H.
  destruct (current_volume <? average_volume df
                              * VolumeBreakoutStrategy.volume_multiplier self);
    [discriminate H|].
  repeat (bind_inv H).
  assert (Hc : confidence sig
               = volume_confidence (current_volume / average_volume df)).
  { destruct (a >? a1); [|destruct (a <? a3); [|discriminate H]];
      bind_inv H; injection H as <-; reflexivity. }
  split; [exists current_volume; repeat split; assumption|].
  split; [rewrite Hc; apply volume_confidence_le_cap|].
  exact volume_confidence_monotone.
Qed.

Lemma volume_breakout_confidence_witness :
  VolumeBreakoutStrategy.generate_signal
    (VolumeBreakoutStrategy.mk (Fin 2.0)) breakout_window
  = Ok (Some breakout_window_signal)
  /\ num_le (confidence breakout_window_signal) (Fin 0.9).
Proof.
  assert (H : VolumeBreakoutStrategy.generate_signal
                (VolumeBreakoutStrategy.mk (Fin 2.0)) breakout_window
              = Ok (Some breakout_window_signal)).
  { hrun. unfold breakout_window_signal. repeat f_equal; req. }
  split; [exact H|].
  exact (proj1 (proj2 (volume_breakout_confidence _ _ _ H))).
Defined.

(* ------------------------------------------------------------------ *)
(** ** Lengths and element-wise operations *)

Lemma length_map2 (f : num -> num -> num) (a b : Series) :
  length (map2 f a b) = Nat.max (length a) (length b).
Proof.
  revert b; induction a as [|x a IH]; intros [|y b]; simpl;
    rewrite ?length_map; auto.
Qed.

Lemma nth_error_map2 (f : num -> num -> num) (a b : Series) (i : nat) :
  length a = length b ->
  nth_error (map2 f a b) i
  = match nth_error a i, nth_error b i with
    | Some x, Some y => Some (f x y)
    | _, _ => None
    end.
Proof.
  revert b i; induction a as [|x a IH]; intros [|y b] [|i] H;
    simpl in *; try discriminate; try reflexivity.
  apply IH. congruence.
Qed.

Lemma length_rolling_apply (w : nat) (agg : list num -> num) (s : Series) :
  length (rolling_apply w agg s) = length s.
Proof. unfold rolling_apply. rewrite length_map, length_seq. reflexivity. Qed.

Lemma length_ewm_from (alpha : num) (st : num * num) (s : Series) :
  length (ewm_from alpha st s) = length s.
Proof. revert st; induction s; simpl; intros; auto. Qed.

Lemma ewm_mean_length (s r : Series) (span : Z) :
  ewm_mean s span = Ok r -> length r = length s.
Proof.
  unfold ewm_mean. destruct (span <? 1)%Z; [discriminate|].
  destruct s; intros H; injection H as <-; simpl;
    rewrite ?length_ewm_from; reflexivity.
Qed.

Lemma ewm_mean_Ok (s : Series) (span : Z) :
  (1 <= span)%Z -> exists r, ewm_mean s span = Ok r.
Proof.
  intros H. unfold ewm_mean.
  destruct (span <? 1)%Z eqn:E; [apply Z.ltb_lt in E; lia|].
  destruct s; eauto.
Qed.

(** With its default spans MACD is defined on every series and keeps its
    length. *)
Lemma calculate_macd_default (prices : Series) :
  exists macd signal_line histogram,
    calculate_macd prices 12 26 9 = Ok (macd, signal_line, histogram)
    /\ length macd = length prices
    /\ length signal_line = length prices.
Proof.
  unfold calculate_macd, calculate_ema.
  destruct (ewm_mean_Ok prices 12 ltac:(lia)) as [f Hf].
  destruct (ewm_mean_Ok prices 26 ltac:(lia)) as [sl Hs].
  rewrite Hf, Hs; cbn [bind].
  destruct (ewm_mean_Ok (map2 sub f sl) 9 ltac:(lia)) as [sg Hg].
  rewrite Hg; cbn [bind].
  apply ewm_mean_length in Hf, Hs, Hg.
  rewrite length_map2 in Hg.
  do 3 eexists; split; [reflexivity|].
  rewrite length_map2. split; lia.
Qed.

Lemma iloc_length_eq (a b : Series) (k : Z) (v : num) :
  length a = length b -> iloc a k = Ok v -> exists v', iloc b k = Ok v'.
Proof.
  unfold iloc, len. intros H. rewrite <- H.
  destruct (_ <? 0)%Z; [discriminate|].
  set (i := Z.to_nat _).
  destruct (nth_error a i) eqn:E; [|discriminate].
  intros _.
  assert (Hi : (i < length a)%nat)
    by (apply nth_error_Some; congruence).
  rewrite H in Hi. apply nth_error_Some in Hi.
  destruct (nth_error b i); [eauto|congruence].
Qed.

Lemma iloc_map2 (f : num -> num -> num) (a b : Series) (k : Z) (x y : num) :
  length a = length b ->
  iloc a k = Ok x -> iloc b k = Ok y ->
  iloc (map2 f a b) k = Ok (f x y).
Proof.
  unfold iloc, len. intros Hl.
  rewrite length_map2, <- Hl, Nat.max_id.
  destruct (_ <? 0)%Z; [discriminate|].
  rewrite nth_error_map2 by assumption.
  destruct (nth_error a _); [|discriminate].
  destruct (nth_error b _); [|discriminate].
  congruence.
Qed.

Lemma calculate_bollinger_bands_length (prices : Series) (period : Z)
  (std_dev : num) (upper middle lower : Series) :
  calculate_bollinger_bands prices period std_dev
  = Ok (upper, middle, lower) ->
  length upper = length prices /\ length lower = length prices.
Proof.
  unfold calculate_bollinger_bands, rolling_mean, rolling_std, rolling.
  destruct (period <? 0)%Z; [discriminate|]. cbn [bind].
  intros H; injection H as <- <- <-.
  rewrite !length_map2, !length_map, !length_rolling_apply. lia.
Qed.

(* ------------------------------------------------------------------ *)
(** ** Bollinger Squeeze (sections 4.5 and 8) *)

(** On a window with enough history the method returns [None] when the
    squeeze check fails; in a squeeze it goes on to the breakout check,
    which starts with [signal = None], and the MACD confirmation that
    follows reads [signal.iloc[-1]] and raises. *)
Lemma bollinger_squeeze_check (self : BollingerSqueezeStrategy.t)
  (df : DataFrame) (is_squeeze : bool) :
  (required_history (BollingerSqueeze self) <= len df)%Z ->
  squeeze_condition self df = Ok is_squeeze ->
  BollingerSqueezeStrategy.generate_signal self df
  = if is_squeeze then Raise AttributeError else Ok None.
Proof.
  intros Hlen Hs. cbn [required_history] in Hlen.
  unfold BollingerSqueezeStrategy.generate_signal.
  destruct (len df <? _)%Z eqn:Eg; [apply Z.ltb_lt in Eg; lia|].
  unfold squeeze_condition, relative_band_width in Hs.
  destruct (calculate_bollinger_bands _ _ _) as [[[upper middle] lower]|e]
    eqn:Eb; [|discriminate Hs].
  cbn [bind] in Hs |- *.
  destruct (calculate_bollinger_bands_length _ _ _ _ _ _ Eb) as [Hu Hl].
  destruct (iloc (map2 div (map2 sub upper lower) (col close df)) (-1))
    as [cw|e] eqn:Ecw; [|discriminate Hs].
  cbn [bind] in Hs.
  assert (Hw : length (map2 div (map2 sub upper lower) (col close df))
               = length (col close df))
    by (rewrite !length_map2; lia).
  destruct (iloc_length_eq _ _ _ _ Hw Ecw) as [price Ep].
  destruct (iloc_length_eq _ upper _ _ (eq_sym Hu) Ep) as [cu Eu].
  destruct (iloc_length_eq _ lower _ _ (eq_sym Hl) Ep) as [cl El].
  rewrite (iloc_map2 div _ _ _ (cu - cl) price) in Ecw;
    [ | rewrite length_map2; lia
      | apply iloc_map2; [lia | assumption | assumption]
      | assumption ].
  injection Ecw as <-.
  destruct (rolling_mean (map2 div (map2 sub upper lower) (col close df)) 15)
    as [rw|e] eqn:Erw; [|discriminate Hs]. cbn [bind] in Hs.
  destruct (iloc rw (-1)) as [aw|e] eqn:Eaw; [|discriminate Hs].
  cbn [bind] in Hs.
  destruct (calculate_atr _ _ _ _) as [atr|e] eqn:Ea; [|discriminate Hs].
  cbn [bind] in Hs |- *.
  destruct (iloc atr (-1)) as [ca|e] eqn:Eca; [|discriminate Hs].
  cbn [bind] in Hs.
  destruct (rolling_mean atr 15) as [ra|e] eqn:Era; [|discriminate Hs].
  cbn [bind] in Hs.
  destruct (iloc ra (-1)) as [aa|e] eqn:Eaa; [|discriminate Hs].
  cbn [bind] in Hs. injection Hs as Hs.
  destruct (calculate_macd_default (col close df))
    as (macd & sl & hist & Hm & Hlm & Hls).
  destruct (iloc_length_eq _ macd _ _ (eq_sym Hlm) Ep) as [ml Hml].
  rewrite Hm. cbn [bind]. cbv zeta.
  rewrite ?Ep, ?Eu, ?El, ?Erw, ?Eaw, ?Eca, ?Era, ?Eaa; cbn [bind].
  rewrite ?Ep, ?Eu, ?El, ?Erw, ?Eaw, ?Eca, ?Era, ?Eaa; cbn [bind].
  rewrite Hs. destruct is_squeeze; cbn [negb]; [|reflexivity].
  rewrite Hml. cbn [bind attr_iloc]. reflexivity.
Qed.

(** C9 fails on the code.  The claim says that a squeeze whose close lies
    within the bands yields no signal ([None]).  On 24 candles, flat at 100
    but for one rise to 104 nine candles ago, a strategy built with
    [bb_period=4, bb_std=2.0, atr_period=2] has enough history, the squeeze
    condition holds and the last close lies within the bands; the method
    then binds [signal = None] over the MACD signal line, reads
    [signal.iloc[-1]] and raises [AttributeError] instead of returning
    [None]. *)
Theorem bollinger_squeeze_raises_attribute_error :
  (required_history
     (BollingerSqueeze (BollingerSqueezeStrategy.mk 4 (Fin 2) 2))
   <= len squeeze_window)%Z
  /\ squeeze_condition (BollingerSqueezeStrategy.mk 4 (Fin 2) 2)
       squeeze_window = Ok true
  /\ inside_bands (BollingerSqueezeStrategy.mk 4 (Fin 2) 2) squeeze_window
     = Ok true
  /\ generate_signal
       (BollingerSqueeze (BollingerSqueezeStrategy.mk 4 (Fin 2) 2))
       squeeze_window = Raise AttributeError.
Proof.
  assert (Hlen : (required_history
                    (BollingerSqueeze (BollingerSqueezeStrategy.mk 4 (Fin 2) 2))
                  <= len squeeze_window)%Z)
    by (vm_compute; discriminate).
  assert (Hs : squeeze_condition (BollingerSqueezeStrategy.mk 4 (Fin 2) 2)
                 squeeze_window = Ok true) by (hrun; reflexivity).
  assert (Hi : inside_bands (BollingerSqueezeStrategy.mk 4 (Fin 2) 2)
                 squeeze_window = Ok true) by (hrun; reflexivity).
  split; [exact Hlen|]. split; [exact Hs|]. split; [exact Hi|].
  exact (bollinger_squeeze_check _ _ true Hlen Hs).
Qed.

(* ------------------------------------------------------------------ *)
(** ** Bollinger Bands (section 4.1) *)


Lemma sum_map_Fin (l : list R) : sum (map Fin l) = Fin (Rsum l).
Proof.
  induction l as [|x l IH]; [reflexivity|].
  cbn [map sum fold_right] in *. unfold sum in IH. rewrite IH. reflexivity.
Qed.

Lemma existsb_is_nan_map_Fin (l : list R) :
  existsb is_nan (map Fin l) = false.
Proof. induction l; simpl; auto. Qed.

Lemma count_pos (l : list R) : l <> [] -> (0 < count l)%R.
Proof.
  intros H. unfold count. apply IZR_lt.
  destruct l; [congruence|simpl; lia].
Qed.

Lemma mean_map_Fin (l : list R) :
  l <> [] -> mean (map Fin l) = Fin (sma l).
Proof.
  intros H. unfold mean, of_nat, of_Z.
  rewrite sum_map_Fin, length_map. cbn [Num.div].
  rewrite Reqb_false; [reflexivity|].
  apply count_pos in H. unfold count in H. lra.
Qed.

Lemma Rsum_nonneg (l : list R) :
  Forall (fun x => 0 <= x)%R l -> (0 <= Rsum l)%R.
Proof.
  induction 1 as [|x l Hx Hl IH]; unfold Rsum in *; cbn [fold_right]; lra.
Qed.

Lemma squared_deviations_nonneg (l : list R) : (0 <= squared_deviations l)%R.
Proof.
  unfold squared_deviations. apply Rsum_nonneg.
  apply Forall_map, Forall_forall. intros x _.
  apply Rle_0_sqr.
Qed.

Lemma std_map_Fin (l : list R) :
  (2 <= length l)%nat -> std (map Fin l) = Fin (sample_std l).
Proof.
  intros H. unfold std.
  assert (Hne : l <> []) by (destruct l; simpl in H; [lia|congruence]).
  rewrite mean_map_Fin by assumption.
  rewrite map_map. cbn [Num.sub Num.neg Num.add Num.mul].
  rewrite <- (map_map (fun x => (x + - sma l) * (x + - sma l))%R Fin).
  rewrite sum_map_Fin, length_map.
  unfold of_nat, of_Z. cbn [Num.sub Num.neg Num.add Num.div].
  assert (Hc : (2 <= count l)%R).
  { unfold count. apply IZR_le. lia. }
  fold (count l).
  rewrite Reqb_false by lra.
  cbn [Num.sqrt].
  assert (Hs : Rsum (map (fun x => (x + - sma l) * (x + - sma l))%R l)
               = squared_deviations l).
  { unfold squared_deviations. f_equal. }
  rewrite Hs.
  pose proof (squared_deviations_nonneg l) as Hn.
  rewrite Rltb_false.
  - reflexivity.
  - intros F.
    assert (0 <= squared_deviations l / (count l + - (1)))%R; [|lra].
    unfold Rdiv. apply Rmult_le_pos; [assumption|].
    left. apply Rinv_0_lt_compat. lra.
Qed.

Lemma nth_error_rolling_apply (w : nat) (agg : list num -> num) (s : Series)
  (i : nat) :
  (i < length s)%nat ->
  nth_error (rolling_apply w agg s) i
  = Some (if (S i <? w)%nat then NaN
          else if existsb is_nan (window_at w s i) then NaN
               else agg (window_at w s i)).
Proof.
  intros H. unfold rolling_apply.
  rewrite nth_error_map, nth_error_seq.
  destruct (i <? length s)%nat eqn:E; [reflexivity|].
  apply Nat.ltb_ge in E; lia.
Qed.

Lemma window_at_map_Fin (w : nat) (xs : list R) (i : nat) :
  window_at w (map Fin xs) i = map Fin (window w xs i).
Proof. unfold window_at, window. rewrite skipn_map, firstn_map. reflexivity. Qed.

Lemma length_window (w : nat) (xs : list R) (i : nat) :
  (w <= S i <= length xs)%nat -> length (window w xs i) = w.
Proof.
  intros H. unfold window. rewrite length_firstn, length_skipn. lia.
Qed.

(** C5, amended. At every position with a complete window of at least
    two finite samples, the middle band is the simple moving average of
    the window and the upper and lower bands are the average plus and
    minus [k] times the sample standard deviation (divisor N - 1) of the
    window. *)
Theorem bollinger_bands_use_sample_std :
  forall (xs : list R) (period : Z) (k : R) (i : nat),
    (2 <= period)%Z ->
    (Z.to_nat period <= S i <= length xs)%nat ->
    exists upper middle lower,
      calculate_bollinger_bands (map Fin xs) period (Fin k)
      = Ok (upper, middle, lower)
      /\ let w := window (Z.to_nat period) xs i in
         nth_error middle i = Some (Fin (sma w))
         /\ nth_error upper i = Some (Fin (sma w + k * sample_std w)%R)
         /\ nth_error lower i = Some (Fin (sma w - k * sample_std w)%R).
Proof.
  intros xs period k i Hp Hi.
  unfold calculate_bollinger_bands, rolling_mean, rolling_std, rolling.
  destruct (period <? 0)%Z eqn:E; [apply Z.ltb_lt in E; lia|].
  cbn [bind]. do 3 eexists. split; [reflexivity|].
  set (n := Z.to_nat period) in *.
  assert (Hn : (2 <= n)%nat) by (unfold n; lia).
  assert (Hlen : length (window n xs i) = n) by (apply length_window; lia).
  assert (Hm : nth_error (rolling_apply n mean (map Fin xs)) i
               = Some (Fin (sma (window n xs i)))).
  { rewrite nth_error_rolling_apply by (rewrite length_map; lia).
    replace (S i <? n)%nat with false by (symmetry; apply Nat.ltb_ge; lia).
    rewrite window_at_map_Fin, existsb_is_nan_map_Fin, mean_map_Fin;
      [reflexivity|].
    intros F. rewrite F in Hlen. simpl in Hlen. lia. }
  assert (Hs : nth_error (rolling_apply n std (map Fin xs)) i
               = Some (Fin (sample_std (window n xs i)))).
  { rewrite nth_error_rolling_apply by (rewrite length_map; lia).
    replace (S i <? n)%nat with false by (symmetry; apply Nat.ltb_ge; lia).
    rewrite window_at_map_Fin, existsb_is_nan_map_Fin, std_map_Fin;
      [reflexivity|lia]. }
  cbv zeta. split; [exact Hm|].
  rewrite !nth_error_map2
    by (rewrite length_map, !length_rolling_apply; reflexivity).
  rewrite nth_error_map, Hm, Hs. cbn.
  split; do 2 f_equal; unfold Rminus; ring.
Qed.

Lemma bollinger_bands_use_sample_std_witness :
  exists upper middle lower,
    calculate_bollinger_bands (map Fin [0; 1; 2]%R) 3 (Fin 2)
    = Ok (upper, middle, lower)
    /\ let w := window (Z.to_nat 3) [0; 1; 2]%R 2 in
       nth_error middle 2 = Some (Fin (sma w))
       /\ nth_error upper 2 = Some (Fin (sma w + 2 * sample_std w)%R)
       /\ nth_error lower 2 = Some (Fin (sma w - 2 * sample_std w)%R).
Proof.
  apply (bollinger_bands_use_sample_std [0; 1; 2]%R 3 2 2).
  - lia.
  - simpl. lia.
Defined.

Lemma squared_deviations_012 : squared_deviations [0; 1; 2]%R = 2%R.
Proof.
  unfold squared_deviations, sma, Rsum, count. cbn [map fold_right length].
  change (Z.of_nat 3) with 3%Z. field.
Qed.

(** C5, as the specification states it, fails: on the prices 0, 1, 2 with
    period 3 and k = 2 the upper band at the last position is 3, the mean
    plus twice the sample standard deviation 1, and not the mean plus
    twice the population standard deviation, the square root of 2/3. *)
Lemma bollinger_bands_population_std_fails :
  calculate_bollinger_bands (map Fin [0; 1; 2]%R) 3 (Fin 2)
  = Ok ([NaN; NaN; Fin 3], [NaN; NaN; Fin 1], [NaN; NaN; Fin (-1)])
  /\ Fin 3 <> Fin (sma [0; 1; 2] + 2 * population_std [0; 1; 2])%R.
Proof.
  split.
  - hrun. repeat f_equal; req.
  - intros H. injection H as H.
    assert (Hm : sma [0; 1; 2]%R = 1%R).
    { unfold sma, Rsum, count. cbn [fold_right length].
      change (Z.of_nat 3) with 3%Z. field. }
    rewrite Hm in H.
    assert (Hs : R_sqrt.sqrt (2 / 3) = 1%R).
    { unfold population_std in H. rewrite squared_deviations_012 in H.
      unfold count in H. cbn [length] in H.
      change (Z.of_nat 3) with 3%Z in H. lra. }
    apply sqrt_lem_0 in Hs; lra.
Qed.

(* ------------------------------------------------------------------ *)
(** ** Divergence (section 4.1) *)

(** Order facts on values that are not missing. *)
Lemma leb_false_ltb (a b : num) :
  is_nan a = false -> is_nan b = false ->
  Num.leb a b = false -> Num.ltb b a = true.
Proof.
  destruct a, b; simpl; try discriminate; try reflexivity.
  intros _ _ H. destruct (Rleb_spec r r0); [discriminate|].
  apply Rltb_true; lra.
Qed.

Lemma leb_trans (a b c : num) :
  Num.leb a b = true -> Num.leb b c = true -> Num.leb a c = true.
Proof.
  destruct a, b, c; simpl; try discriminate; try reflexivity.
  intros H1 H2.
  destruct (Rleb_spec r r0), (Rleb_spec r0 r1); try discriminate.
  apply Rleb_true; lra.
Qed.

Lemma leb_ltb_leb (a b c : num) :
  Num.leb a b = true -> Num.ltb b c = true -> Num.leb a c = true.
Proof.
  destruct a, b, c; simpl; try discriminate; try reflexivity.
  intros H1 H2.
  destruct (Rleb_spec r r0), (Rltb_spec r0 r1); try discriminate.
  apply Rleb_true; lra.
Qed.

Lemma ltb_leb_swap (a b c : num) :
  Num.leb b a = true -> Num.ltb c b = true -> Num.leb c a = true.
Proof.
  destruct a, b, c; simpl; try discriminate; try reflexivity.
  intros H1 H2.
  destruct (Rleb_spec r0 r), (Rltb_spec r1 r0); try discriminate.
  apply Rleb_true; lra.
Qed.

Section FirstBest.

Variable better strictly : num -> num -> bool.
Hypothesis better_total :
  forall a b, is_nan a = false -> is_nan b = false ->
              better a b = false -> strictly b a = true.
Hypothesis better_trans :
  forall a b c, better a b = true -> better b c = true ->
                better a c = true.
Hypothesis better_strictly :
  forall a b c, better a b = true -> strictly b c = true ->
                better a c = true.

Lemma pick_first_best (w : LSeries) m r :
  Forall (fun e => is_nan (snd e) = false) w ->
  pick better w = Some (m, r) ->
  exists l1 l2,
    w = l1 ++ m :: l2 /\ r = l1 ++ l2
    /\ Forall (fun e => strictly (snd m) (snd e) = true) l1
    /\ Forall (fun e => better (snd m) (snd e) = true) l2.
Proof.
  revert m r; induction w as [|e t IH]; intros m r Hw H; [discriminate|].
  inversion Hw as [|? ? He Ht]; subst.
  cbn [pick] in H. destruct (pick better t) as [[m' r']|] eqn:E.
  - destruct (IH _ _ Ht eq_refl) as (l1 & l2 & -> & -> & H1 & H2).
    destruct (better (snd e) (snd m')) eqn:B;
      injection H as <- <-.
    + exists [], (l1 ++ m' :: l2). repeat split; [constructor|].
      apply Forall_app. split.
      * eapply Forall_impl; [|exact H1]. intros x Hx.
        eapply better_strictly; eassumption.
      * constructor; [assumption|].
        eapply Forall_impl; [|exact H2]. intros x Hx.
        eapply better_trans; eassumption.
    + exists (e :: l1), l2. repeat split; [|assumption].
      constructor; [|assumption].
      apply better_total; [assumption | | assumption].
      apply Forall_app in Ht. destruct Ht as [_ Ht].
      inversion Ht; assumption.
  - assert (t = []) as ->.
    { destruct t as [|x t]; [reflexivity|]. cbn [pick] in E.
      destruct (pick better t) as [[? ?]|]; [|discriminate].
      destruct (better (snd x) (snd p)); discriminate. }
    injection H as <- <-. exists [], []. repeat split; constructor.
Qed.

End FirstBest.

(** The lowest sample: strictly below every earlier one, not above any later one. *)
Lemma pick_lowest (w : LSeries) m r :
  Forall (fun e => is_nan (snd e) = false) w ->
  pick Num.leb w = Some (m, r) ->
  exists l1 l2,
    w = l1 ++ m :: l2 /\ r = l1 ++ l2
    /\ Forall (fun e => Num.ltb (snd m) (snd e) = true) l1
    /\ Forall (fun e => Num.leb (snd m) (snd e) = true) l2.
Proof.
  apply pick_first_best.
  - exact leb_false_ltb.
  - exact leb_trans.
  - exact leb_ltb_leb.
Qed.

Lemma pick_highest (w : LSeries) m r :
  Forall (fun e => is_nan (snd e) = false) w ->
  pick Num.geb w = Some (m, r) ->
  exists l1 l2,
    w = l1 ++ m :: l2 /\ r = l1 ++ l2
    /\ Forall (fun e => Num.gtb (snd m) (snd e) = true) l1
    /\ Forall (fun e => Num.geb (snd m) (snd e) = true) l2.
Proof.
  apply pick_first_best.
  - intros a b Ha Hb H. apply (leb_false_ltb b a); assumption.
  - intros a b c H1 H2. exact (leb_trans c b a H2 H1).
  - intros a b c H1 H2. unfold Num.geb, Num.gtb in *.
    exact (ltb_leb_swap a b c H1 H2).
Qed.

Lemma present_not_missing (w : LSeries) :
  Forall (fun e => is_nan (snd e) = false) (present w).
Proof.
  apply Forall_forall. intros e H. apply filter_In in H.
  destruct (is_nan (snd e)); [destruct H; discriminate | reflexivity].
Qed.

Lemma sort_by_pick (before : num -> num -> bool) (l : LSeries) :
  sort_by before l
  = match pick before l with
    | None => []
    | Some (m, r) => m :: sort_by before r
    end.
Proof.
  induction l as [|e t IH]; [reflexivity|].
  cbn [pick]. change (sort_by before (e :: t))
    with (insert_by before e (sort_by before t)).
  rewrite IH. destruct (pick before t) as [[m r]|].
  - cbn [insert_by]. destruct (before (snd e) (snd m)).
    + rewrite IH. reflexivity.
    + reflexivity.
  - reflexivity.
Qed.

Lemma pick_In (before : num -> num -> bool) (l : LSeries) m r :
  pick before l = Some (m, r) -> In m l /\ incl r l.
Proof.
  revert m r; induction l as [|e t IH]; intros m r H; [discriminate|].
  cbn [pick] in H. destruct (pick before t) as [[m' r']|].
  - destruct (IH _ _ eq_refl) as [Hm Hr].
    destruct (before (snd e) (snd m')); injection H as <- <-.
    + split; [left; reflexivity | apply incl_tl, incl_refl].
    + split; [right; assumption|].
      intros x [<-|Hx]; [left; reflexivity | right; apply Hr, Hx].
  - injection H as <- <-. split; [left; reflexivity | intros x []].
Qed.

Lemma select_n_2 (before : num -> num -> bool) (w : LSeries) :
  select_n before 2 w
  = match pick before (present w) with
    | None => firstn 2 (missing w)
    | Some (a, r) =>
        match pick before r with
        | None => a :: firstn 1 (missing w)
        | Some (b, _) => [a; b]
        end
    end.
Proof.
  unfold select_n. fold (present w). fold (missing w).
  rewrite sort_by_pick. destruct (pick before (present w)) as [[a r]|];
    [|reflexivity].
  rewrite sort_by_pick. destruct (pick before r) as [[b r']|]; reflexivity.
Qed.

Lemma missing_NaN (w : LSeries) e : In e (missing w) -> snd e = NaN /\ In e w.
Proof.
  unfold missing. rewrite filter_In. intros [H1 H2].
  destruct e as [i [| | |]]; simpl in *; try discriminate. auto.
Qed.

Lemma present_In (w : LSeries) e : In e (present w) -> In e w.
Proof. unfold present. rewrite filter_In. tauto. Qed.

(** Labels of the trailing window. *)
Lemma lookup_combine_seq (s : Series) (a i : nat) :
  lookup (combine (seq a (length s)) s) i
  = if (a <=? i)%nat then nth_error s (i - a) else None.
Proof.
  revert a; induction s as [|x s IH]; intros a.
  - simpl. destruct (a <=? i)%nat; [destruct (i - a)%nat|]; reflexivity.
  - cbn [length seq combine lookup].
    destruct (Nat.eqb_spec a i) as [->|Hne].
    + rewrite Nat.leb_refl, Nat.sub_diag. reflexivity.
    + rewrite IH.
      destruct (Nat.leb_spec (S a) i), (Nat.leb_spec a i); try lia;
        [|reflexivity].
      replace (i - a)%nat with (S (i - S a)) by lia. reflexivity.
Qed.

Lemma skipn_labelled (s : Series) (a k : nat) :
  skipn k (combine (seq a (length s)) s)
  = combine (seq (a + k) (length (skipn k s))) (skipn k s).
Proof.
  revert a s; induction k as [|k IH]; intros a s.
  - rewrite Nat.add_0_r. reflexivity.
  - destruct s as [|x s]; [reflexivity|].
    cbn [length seq combine skipn]. rewrite IH. f_equal. f_equal. lia.
Qed.

Lemma In_combine_seq (s : Series) (a i : nat) (v : num) :
  In (i, v) (combine (seq a (length s)) s) ->
  (a <= i < a + length s)%nat.
Proof.
  intros H. apply in_combine_l in H. apply in_seq in H. exact H.
Qed.

Lemma trailing_label (s : Series) (n : nat) e :
  In e (trailing n s) -> (length s - n <= fst e < length s)%nat.
Proof.
  unfold trailing, labelled. rewrite skipn_labelled. destruct e as [i v].
  intros H. apply In_combine_seq in H. rewrite length_skipn in H. simpl. lia.
Qed.

Lemma lookup_trailing (s : Series) (n i : nat) :
  (length s - n <= i < length s)%nat ->
  lookup (trailing n s) i = Some (nth i s NaN).
Proof.
  intros H. unfold trailing, labelled.
  rewrite skipn_labelled, lookup_combine_seq. cbn [Nat.add].
  destruct (Nat.leb_spec (length s - n) i); [|lia].
  rewrite nth_error_skipn.
  replace (length s - n + (i - (length s - n)))%nat with i by lia.
  apply nth_error_nth'. lia.
Qed.

Lemma iloc_from_trailing (s : Series) (lookback : Z) :
  (0 < lookback)%Z ->
  iloc_from s (- lookback) = trailing (Z.to_nat lookback) s.
Proof.
  intros H. unfold iloc_from, trailing, slice_start, len.
  destruct (- lookback <? 0)%Z eqn:E; [|apply Z.ltb_ge in E; lia].
  f_equal. lia.
Qed.

Lemma loc_entries (s : LSeries) (f : nat -> num) (picked : LSeries) :
  (forall e, In e picked -> lookup s (fst e) = Some (f (fst e))) ->
  loc s (index picked) = Ok (map (fun e => (fst e, f (fst e))) picked).
Proof.
  induction picked as [|e t IH]; intros H; [reflexivity|].
  cbn [index map loc]. rewrite (H e) by (left; reflexivity).
  unfold index in IH. rewrite IH by (intros; apply H; right; assumption).
  reflexivity.
Qed.

Lemma bind_assoc {A B C : Type} (m : result A) (f : A -> result B)
  (g : B -> result C) :
  bind (bind m f) g = bind m (fun a => bind (f a) g).
Proof. destruct m; reflexivity. Qed.

Lemma detect_divergence_blocks (prices indicator : Series) (lookback : Z) :
  (len prices <? lookback * 2)%Z = false ->
  detect_divergence prices indicator lookback
  = (is_bullish <-
       pattern_check (iloc_from indicator (- lookback))
         (nsmallest 2 (iloc_from prices (- lookback))) Num.gtb Num.ltb ;;
     if is_bullish then Ok (Some bullish)
     else
       is_bearish <-
         pattern_check (iloc_from indicator (- lookback))
           (nlargest 2 (iloc_from prices (- lookback))) Num.ltb Num.gtb ;;
       if is_bearish then Ok (Some bearish) else Ok None).
Proof.
  intros H. unfold detect_divergence, pattern_check. rewrite H.
  cbv zeta. rewrite bind_assoc.
  destruct (loc _ _) as [il|e]; cbn [bind]; [|reflexivity].
  match goal with
  | |- bind ?m _ = _ => destruct m as [[|]|e]; cbn [bind]; try reflexivity
  end.
  rewrite bind_assoc. reflexivity.
Qed.

Lemma pattern_check_value (ri picked : LSeries) (f : nat -> num)
  (t1 t2 : num -> num -> bool) :
  (length picked <= 2)%nat ->
  (forall e, In e picked -> lookup ri (fst e) = Some (f (fst e))) ->
  pattern_check ri picked t1 t2
  = Ok (match picked with
        | [a; b] => t1 (snd b) (snd a) && t2 (f (fst b)) (f (fst a))
        | _ => false
        end).
Proof.
  intros Hlen Hl. unfold pattern_check.
  rewrite (loc_entries _ f) by assumption. cbn [bind].
  destruct picked as [|a [|b [|c t]]]; try reflexivity.
  simpl in Hlen. lia.
Qed.

Lemma ranked_test_select (before t1 t2 : num -> num -> bool)
  (prices indicator : Series) (n : nat) :
  (forall x, t1 NaN x = false) ->
  match select_n before 2 (trailing n prices) with
  | [a; b] =>
      t1 (snd b) (snd a) && t2 (nth (fst b) indicator NaN)
                               (nth (fst a) indicator NaN)
  | _ => false
  end
  = ranked_test before t1 t2 prices indicator n.
Proof.
  intros Ht. unfold ranked_test, two_best, at_label.
  rewrite select_n_2.
  destruct (pick before (present (trailing n prices))) as [[a r]|].
  - destruct (pick before r) as [[b r']|]; [reflexivity|].
    destruct (missing (trailing n prices)) as [|e t] eqn:E; [reflexivity|].
    cbn [firstn].
    destruct (missing_NaN (trailing n prices) e) as [He _];
      [rewrite E; left; reflexivity|].
    rewrite He, Ht. reflexivity.
  - destruct (missing (trailing n prices)) as [|e1 [|e2 t]] eqn:E;
      try reflexivity.
    cbn [firstn].
    destruct (missing_NaN (trailing n prices) e2) as [He _];
      [rewrite E; right; left; reflexivity|].
    rewrite He, Ht. reflexivity.
Qed.

Lemma In_firstn {A : Type} (k : nat) (l : list A) (x : A) :
  In x (firstn k l) -> In x l.
Proof.
  revert l; induction k as [|k IH]; intros [|y l] H; simpl in *; try tauto.
  destruct H as [H|H]; [left; assumption | right; apply IH, H].
Qed.

Lemma select_n_2_In (before : num -> num -> bool) (w : LSeries) e :
  In e (select_n before 2 w) -> In e w.
Proof.
  rewrite select_n_2.
  destruct (pick before (present w)) as [[a r]|] eqn:Ea.
  - apply pick_In in Ea. destruct Ea as [Ha Hr].
    destruct (pick before r) as [[b r']|] eqn:Eb.
    + apply pick_In in Eb. destruct Eb as [Hb _].
      intros [<-|[<-|[]]]; apply present_In; auto.
    + intros [<-|H]; [apply present_In; assumption|].
      apply In_firstn, missing_NaN in H. tauto.
  - intros H. apply In_firstn, missing_NaN in H. tauto.
Qed.

Lemma select_n_length (before : num -> num -> bool) (n : nat) (w : LSeries) :
  (length (select_n before n w) <= n)%nat.
Proof. unfold select_n. rewrite length_firstn. lia. Qed.

(** C4, amended. On a series of at least twice the lookback, with an
    indicator of the same length, [detect_divergence] decides by rank and
    not by time: Bullish exactly when the second lowest price of the
    trailing window is strictly above the lowest one and the indicator at
    the position of the second lowest is below the indicator at the
    position of the lowest; otherwise Bearish exactly when the second
    highest price is strictly below the highest one and the indicator at
    its position is above; otherwise None.  Which of the two samples came
    first plays no part. *)
Theorem detect_divergence_by_rank :
  forall (prices indicator : Series) (lookback : Z),
    (0 < lookback)%Z ->
    length indicator = length prices ->
    (2 * lookback <= len prices)%Z ->
    detect_divergence prices indicator lookback
    = Ok (ranked_divergence prices indicator (Z.to_nat lookback)).
Proof.
  intros prices indicator lookback Hpos Hlen Hlong.
  rewrite detect_divergence_blocks by (apply Z.ltb_ge; lia).
  rewrite !iloc_from_trailing by assumption.
  set (n := Z.to_nat lookback).
  assert (Hl : forall before e,
             In e (select_n before 2 (trailing n prices)) ->
             lookup (trailing n indicator) (fst e)
             = Some (nth (fst e) indicator NaN)).
  { intros before e He. apply select_n_2_In, trailing_label in He.
    apply lookup_trailing. rewrite Hlen. exact He. }
  unfold nsmallest, nlargest, ranked_divergence.
  rewrite (pattern_check_value _ _ (fun i => nth i indicator NaN));
    [ | apply select_n_length | apply Hl ].
  cbn [bind]. rewrite ranked_test_select by (intros []; reflexivity).
  destruct (ranked_test Num.leb Num.gtb Num.ltb prices indicator n);
    [reflexivity|].
  rewrite (pattern_check_value _ _ (fun i => nth i indicator NaN));
    [ | apply select_n_length | apply Hl ].
  cbn [bind]. rewrite ranked_test_select by (intros []; reflexivity).
  destruct (ranked_test Num.geb Num.ltb Num.gtb prices indicator n);
    reflexivity.
Qed.


Lemma detect_divergence_by_rank_witness :
  detect_divergence zigzag_prices zigzag_indicator 3
  = Ok (ranked_divergence zigzag_prices zigzag_indicator (Z.to_nat 3)).
Proof.
  apply detect_divergence_by_rank.
  - lia.
  - reflexivity.
  - vm_compute. discriminate.
Defined.

(** C4, as the specification states it, fails.  In the window 2, 5, 1 the
    two lowest prices are 1 (last) and 2 (first): in the order of time the
    later low is the lower one, so the rule of the specification finds no
    bullish pattern (and no bearish one); the code compares the second
    lowest, 2, with the lowest, 1, and answers Bullish. *)
Lemma detect_divergence_ignores_time_order :
  detect_divergence zigzag_prices zigzag_indicator 3 = Ok (Some bullish)
  /\ chronological_divergence zigzag_prices zigzag_indicator 3 = None.
Proof.
  split.
  - hrun. reflexivity.
  - run. reflexivity.
Qed.
